(** * picozero: the value sequencer, the PWM channel registry and the
      pattern builders

    A shallow embedding of [picozero/picozero.py].

    - A Python number, int or float, is the rational [Q] it denotes;
      [int(x)] is truncation towards zero.  A float is a binary64 number,
      and [binary64] is the rounding that the interpreter applies to the
      exact result of an operation on floats, and to a decimal literal.
      The timer period of the sequencer, and the generator of
      [PWMLED.blink] as [PWMLED.float_blink_generator], are computed with
      this rounding.  The other formulas of the devices and of the pattern
      builders are read in exact arithmetic, which gives their shape and
      their ranges.
    - For the sequencer, the hardware behind a device is the log of the
      values handed to the device's [_write]; for the PWM devices it is the
      duty last written.  The one-shot [Timer] is the period it is armed
      with, if any, and its interrupt is the transition [expire].
    - [ValueChange.__init__] is the constructor up to its polling loop.
      With [wait=False] it returns there, and [_start_change] records the
      sequencer in the device.  With [wait=True] the loop, which changes
      no state, runs while the timer expires, and the device does not
      record the sequencer before it has completed.
    - A Python exception is a value of an error type; a call that can recurse
      takes the number of call frames it may still use, and answers [None]
      when it would need more. *)

From Stdlib Require Import QArith Qround Qabs Lqa.
From Stdlib Require Import SpecFloat.
From stdpp Require Import base option list strings gmap pretty.

Local Open Scope Z_scope.

(** ** Python numbers *)

(** [int(q)]: truncation towards zero. *)
Definition py_int (q : Q) : Z :=
  if Qle_bool 0 q then Qfloor q else Qceiling q.

(** [q > 0] *)
Definition Qpos_b (q : Q) : bool := negb (Qle_bool q 0).

(** [range(m)] *)
Definition py_range (m : Z) : list Z := Z.of_nat <$> seq 0 (Z.to_nat m).

(** [l[i]] for a Python list: a negative index counts from the end, an index
    out of range raises IndexError ([None]). *)
Definition py_getitem {A} (l : list A) (i : Z) : option A :=
  let len := Z.of_nat (length l) in
  if bool_decide (0 <= i < len) then l !! Z.to_nat i
  else if bool_decide (- len <= i < 0) then l !! Z.to_nat (len + i)
  else None.

(** The truth value of a number: [if q]. *)
Definition truthy (q : Q) : bool := negb (Qeq_bool q 0).

(** [round(q)]: to the nearest integer, a tie going to the even one. *)
Definition py_round (q : Q) : Z :=
  let f := Qfloor q in
  match (q - inject_Z f ?= 1 # 2)%Q with
  | Lt => f
  | Gt => f + 1
  | Eq => if Z.even f then f else f + 1
  end.

(** *** Floats

    [Qlog2 q], for [q] other than 0, is the exponent of [q]: the [e] with
    [2 ^ e <= |q| < 2 ^ (e + 1)]. *)
Definition Qlog2 (q : Q) : Z :=
  let e := Z.log2 (Z.abs (Qnum q)) - Z.log2 (Zpos (Qden q)) in
  if Qle_bool (2 ^ e) (Qabs q) then e else e - 1.

(** The binary64 number nearest to [q], a tie going to the even mantissa:
    a multiple of [2 ^ (e - 52)] for a [q] of exponent [e], of [2 ^ -1074]
    for a subnormal.  It is what a decimal literal denotes, and what an
    operation on floats returns for the exact result [q].  The exponent is
    not bounded above: beyond the largest float, where Python has [inf],
    the model does not follow. *)
Definition binary64 (q : Q) : Q :=
  if Qeq_bool q 0 then 0%Q
  else
    let ulp := (2 ^ Z.max (Qlog2 q - 52) (-1074))%Q in
    Qred (inject_Z (py_round (q / ulp)) * ulp).

(** [q] is a binary64 number; an int up to [2 ^ 53] is one. *)
Definition is_binary64 (q : Q) : bool := Qeq_bool (binary64 q) q.

(** [a * b], [a / b] and [a - b] in floating point: the operands are
    floats, an int operand being converted, and the exact result is
    rounded.  On ints up to [2 ^ 53] whose result is one, the operation is
    the exact one of Python's ints.  A rational that is no binary64 number
    stands for the float nearest to it, as a decimal literal does. *)
Definition float_mul (a b : Q) : Q := binary64 (binary64 a * binary64 b).
Definition float_div (a b : Q) : Q := binary64 (binary64 a / binary64 b).
Definition float_sub (a b : Q) : Q := binary64 (binary64 a - binary64 b).

(** The floats of the Standard Library's formalisation of IEEE 754, to
    compare [binary64] with: the rational that one denotes, the float of an
    int, and the binary64 operations. *)
Definition Q_of_spec_float (f : spec_float) : option Q :=
  match f with
  | S754_zero _ => Some 0%Q
  | S754_finite s m e =>
      Some (Qred (inject_Z (if s then Z.neg m else Z.pos m) * 2 ^ e))
  | _ => None
  end.

Definition spec_float_of_Z (z : Z) : spec_float :=
  match z with
  | 0 => S754_zero false
  | Z.pos p => S754_finite false p 0
  | Z.neg p => S754_finite true p 0
  end.

Definition spec_mul : spec_float -> spec_float -> spec_float := SFmul 53 1024.
Definition spec_div : spec_float -> spec_float -> spec_float := SFdiv 53 1024.
Definition spec_sub : spec_float -> spec_float -> spec_float := SFsub 53 1024.

(** The float nearest to [n / d], as the correctly rounded quotient of two
    ints: the value of the decimal literal when [d] is a power of 10. *)
Definition spec_float_of_ratio (n d : Z) : spec_float :=
  spec_div (spec_float_of_Z n) (spec_float_of_Z d).

(** [float_mul], [float_div] and [float_sub] return at [n1 / d1] and
    [n2 / d2] what the operations of the Standard Library return at the
    floats nearest to them, and [binary64] gives these floats. *)
Definition agrees_with_spec_float (n1 d1 n2 d2 : Z) : bool :=
  let a := spec_float_of_ratio n1 d1 in
  let b := spec_float_of_ratio n2 d2 in
  let same (f : spec_float) (q : Q) : bool :=
    match Q_of_spec_float f with
    | Some q' => Qeq_bool q' q
    | None => false
    end in
  same a (binary64 (n1 # Z.to_pos d1))
  && same (spec_mul a b) (float_mul (n1 # Z.to_pos d1) (n2 # Z.to_pos d2))
  && same (spec_sub a b) (float_sub (n1 # Z.to_pos d1) (n2 # Z.to_pos d2))
  && ((n2 =? 0)
      || same (spec_div a b)
           (float_div (n1 # Z.to_pos d1) (n2 # Z.to_pos d2))).

(** The exceptions the modelled code raises. *)
Inductive Exception : Type :=
  | PWMChannelAlreadyInUse (msg : string)
  | IndexError
  | KeyError (key : string).

(** ** class ValueChange *)

Module ValueChange.
Section Sequencer.

(** The values a device accepts, and the embedding of Python's [0]. *)
Context {V : Type} (zero : V).

(** The sequencer object together with the output device it drives.  A
    step of a sequence is a pair [(value, seconds)].  [_generator] is the
    generator function: every call of it yields the same finite list of
    steps; [_gen] is what the current generator object has not yielded yet.
    [_timer] is the period in milliseconds the one-shot timer is armed
    with: [int(seconds * 1000)], where the product of a float is rounded
    and the product of an int, exact, is left as it is by the rounding.
    [attached] says that the device's [_value_changer] is this very object;
    [sink] is the log of the values passed to the device's [_write], oldest
    first. *)
Record t : Type := mk {
  _generator : list (V * Q);
  _n : option Z;
  _gen : list (V * Q);
  _timer : option Z;
  _running : bool;
  attached : bool;
  sink : list V
}.

Definition set_gen (g : list (V * Q)) (s : t) : t :=
  mk (_generator s) (_n s) g (_timer s) (_running s) (attached s) (sink s).
Definition set_n (n : option Z) (s : t) : t :=
  mk (_generator s) n (_gen s) (_timer s) (_running s) (attached s) (sink s).
Definition set_timer (p : option Z) (s : t) : t :=
  mk (_generator s) (_n s) (_gen s) p (_running s) (attached s) (sink s).
Definition set_running (b : bool) (s : t) : t :=
  mk (_generator s) (_n s) (_gen s) (_timer s) b (attached s) (sink s).
Definition set_attached (b : bool) (s : t) : t :=
  mk (_generator s) (_n s) (_gen s) (_timer s) (_running s) b (sink s).

(** [output_device._write(value)] *)
Definition _write (value : V) (s : t) : t :=
  mk (_generator s) (_n s) (_gen s) (_timer s) (_running s) (attached s)
     (sink s ++ [value]).

(** [ValueChange.stop] *)
Definition stop (s : t) : t := set_timer None (set_running false s).

(** [OutputDevice._stop_change] *)
Definition _stop_change (s : t) : t :=
  if attached s then set_attached false (stop s) else s.

(** [output_device.value = value]: the setter of the [value] property. *)
Definition value_set (value : V) (s : t) : t := _write value (_stop_change s).

(** [ValueChange._set_value].  [depth] bounds the call frames: the
    recursive call after a restart takes one more. *)
Fixpoint _set_value (depth : nat) (s : t) : option t :=
  match depth with
  | O => None
  | S depth' =>
      if _running s then
        match _gen s with
        | (value, seconds) :: rest =>
            Some (set_timer (Some (py_int (float_mul seconds 1000)))
                    (_write value (set_gen rest s)))
        | [] =>
            let n := (fun n => n - 1) <$> _n s in
            let s := set_n n s in
            if bool_decide (n = Some 0) then
              Some (set_running false (value_set zero s))
            else
              _set_value depth' (set_gen (_generator s) s)
        end
      else Some s
  end.

(** [ValueChange.__init__] with [wait=False], called on a device whose log
    is [sink0] and whose [_value_changer] is [None]. *)
Definition __init__ (depth : nat) (sink0 : list V)
    (generator : list (V * Q)) (n : option Z) : option t :=
  _set_value depth (mk generator n generator None true false sink0).

(** [OutputDevice._start_change] *)
Definition _start_change (depth : nat) (sink0 : list V)
    (generator : list (V * Q)) (n : option Z) : option t :=
  set_attached true <$> __init__ depth sink0 generator n.

(** The timer expires: a one-shot timer that is armed disarms and calls
    its callback, [_set_value]. *)
Definition expire (depth : nat) (s : t) : option t :=
  match _timer s with
  | Some _ => _set_value depth (set_timer None s)
  | None => Some s
  end.

(** [k] expiries in a row. *)
Fixpoint expiries (depth : nat) (k : nat) (s : t) : option t :=
  match k with
  | O => Some s
  | S k' => expire depth s ≫= expiries depth k'
  end.

(** A pattern method starts the sequencer on a device whose log is
    [sink0], then the timer expires [k] times. *)
Definition play (depth : nat) (sink0 : list V) (generator : list (V * Q))
    (n : option Z) (k : nat) : option t :=
  _start_change depth sink0 generator n ≫= expiries depth k.

(** *** The configurations a playing sequencer goes through *)

Section Playing.

Variables (cycle : list (V * Q)) (sink0 : list V) (n : option Z).

(** The sequencer has played [q] whole cycles and the steps [pre] of the
    current one; [post] is still to come. *)
Record playing (q : nat) (pre post : list (V * Q)) (s : t) : Prop := {
  pl_generator : _generator s = cycle;
  pl_n : _n s = (fun m => m - Z.of_nat q) <$> n;
  pl_gen : _gen s = post;
  pl_split : cycle = pre ++ post;
  pl_pre : pre ≠ [];
  pl_timer : _timer s
             = (fun st : V * Q => py_int (float_mul st.2 1000)) <$> last pre;
  pl_running : _running s = true;
  pl_attached : attached s = true;
  pl_sink : sink s = sink0 ++ concat (replicate q cycle.*1) ++ pre.*1
}.

(** The sequencer has completed. *)
Record completed (q : nat) (s : t) : Prop := {
  co_n : _n s = Some 0;
  co_timer : _timer s = None;
  co_running : _running s = false;
  co_attached : attached s = false;
  co_sink : sink s = sink0 ++ concat (replicate q cycle.*1) ++ [zero]
}.

End Playing.

End Sequencer.
End ValueChange.

(** ** class OutputDevice *)

Module OutputDevice.

(** An output device between two timer callbacks: its [_value_changer] is
    [None] and [log] is what has been written to it so far, or the device
    last started the sequencer [s]. *)
Inductive t : Type :=
  | Idle (log : list Q)
  | Driven (s : ValueChange.t (V:=Q)).

(** [self.value = value]; the result is the log of the device. *)
Definition value_set (value : Q) (d : t) : list Q :=
  match d with
  | Idle log => log ++ [value]
  | Driven s => ValueChange.sink (ValueChange.value_set value s)
  end.

(** [OutputDevice.off] *)
Definition off (d : t) : list Q := value_set 0 d.

(** The generator [OutputDevice.blink] hands to [_start_change]:
    [lambda : iter([(1,on_time), (0,off_time)])]. *)
Definition blink_generator (on_time off_time : Q) : list (Q * Q) :=
  [(1%Q, on_time); (0%Q, off_time)].

(** [OutputDevice.blink(on_time=1, off_time=None, n=None, wait=False)] *)
Definition blink (depth : nat) (d : t) (on_time : Q) (off_time : option Q)
    (n : option Z) : option (ValueChange.t (V:=Q)) :=
  let off_time := default on_time off_time in
  let log := off d in
  ValueChange._start_change 0%Q depth log (blink_generator on_time off_time) n.

End OutputDevice.

(** ** class DigitalOutputDevice *)

Module DigitalOutputDevice.

(** [_pin] is the level of the pin, as [Pin.value()] returns it;
    [_active_state] and [_inactive_state] are what the setter of
    [active_high] stores.  The sequencer that [_stop_change] stops is the
    one of [ValueChange]. *)
Record t : Type := mk {
  _pin : Z;
  _active_state : bool;
  _inactive_state : bool
}.

(** [DigitalOutputDevice._value_to_state] *)
Definition _value_to_state (d : t) (value : Q) : Z :=
  Z.b2z (if truthy value then _active_state d else _inactive_state d).

(** [DigitalOutputDevice._state_to_value] *)
Definition _state_to_value (d : t) (state : Z) : Z :=
  Z.b2z (eqb (negb (state =? 0)) (_active_state d)).

(** [DigitalOutputDevice._read] *)
Definition _read (d : t) : Z := _state_to_value d (_pin d).

(** [DigitalOutputDevice._write] *)
Definition _write (value : Q) (d : t) : t :=
  mk (_value_to_state d value) (_active_state d) (_inactive_state d).

(** [DigitalOutputDevice.__init__(pin, active_high=True,
    initial_value=False)]: the setter of [active_high], then the write of the
    initial value. *)
Definition __init__ (active_high : bool) (initial_value : Q) : t :=
  _write initial_value
    (mk 0 (if active_high then true else false)
          (if active_high then false else true)).

(** [self.value = value] *)
Definition value_set (value : Q) (d : t) : t := _write value d.

(** [OutputDevice.on] *)
Definition on (d : t) : t := value_set 1 d.

(** [OutputDevice.off] *)
Definition off (d : t) : t := value_set 0 d.

(** [OutputDevice.is_active]: [bool(self.value)] *)
Definition is_active (d : t) : bool := negb (_read d =? 0).

(** [OutputDevice.toggle] *)
Definition toggle (d : t) : t := if is_active d then off d else on d.

(** What every constructed device satisfies: the two states are opposite
    and the pin is at level 0 or 1. *)
Definition wf (d : t) : Prop :=
  _inactive_state d = negb (_active_state d) /\ (_pin d = 0 \/ _pin d = 1).

End DigitalOutputDevice.

(** ** class PWMOutputDevice *)

Module PWMOutputDevice.

Definition PIN_TO_PWM_CHANNEL : list string :=
  ["0A"; "0B"; "1A"; "1B"; "2A"; "2B"; "3A"; "3B"; "4A"; "4B"; "5A"; "5B";
   "6A"; "6B"; "7A"; "7B"; "0A"; "0B"; "1A"; "1B"; "2A"; "2B"; "3A"; "3B";
   "4A"; "4B"; "5A"; "5B"; "6A"; "6B"].

(** The attributes of a device; [duty_u16] is the duty last written to
    [_pwm].  The class attribute [_channels_used], shared by all devices, is
    passed to the methods and returned by them. *)
Record t : Type := mk {
  _pin_num : Z;
  _duty_factor : Q;
  _active_state : bool;
  duty_u16 : Z
}.

(** [PWMOutputDevice._check_pwm_channel] *)
Definition _check_pwm_channel (pin_num : Z) (used : gmap string Z)
    : Exception + gmap string Z :=
  match py_getitem PIN_TO_PWM_CHANNEL pin_num with
  | None => inl IndexError
  | Some channel =>
      match used !! channel with
      | Some owner =>
          inl (PWMChannelAlreadyInUse
                 ("PWM channel " +:+ channel +:+
                  " is already in use by pin " +:+ pretty owner))
      | None => inr (<[channel := pin_num]> used)
      end
  end.

(** [PWMOutputDevice._value_to_state] *)
Definition _value_to_state (d : t) (value : Q) : Z :=
  py_int (_duty_factor d * (if _active_state d then value else 1 - value)).

(** [PWMOutputDevice._write] *)
Definition _write (value : Q) (d : t) : t :=
  mk (_pin_num d) (_duty_factor d) (_active_state d) (_value_to_state d value).

(** [PWMOutputDevice.__init__(pin, freq=100, duty_factor=65025,
    active_high=True, initial_value=False)]; [freq] is not used by the
    source.  The result is the device, or the exception raised, and
    [_channels_used] as the call leaves it. *)
Definition __init__ (pin : Z) (duty_factor : Q) (active_high : bool)
    (initial_value : Q) (used : gmap string Z)
    : (Exception + t) * gmap string Z :=
  match _check_pwm_channel pin used with
  | inl e => (inl e, used)
  | inr used' =>
      (inr (_write initial_value (mk pin duty_factor active_high 0)), used')
  end.

(** [del PWMOutputDevice._channels_used[PIN_TO_PWM_CHANNEL[pin_num]]] *)
Definition del_channel (pin_num : Z) (used : gmap string Z)
    : Exception + gmap string Z :=
  match py_getitem PIN_TO_PWM_CHANNEL pin_num with
  | None => inl IndexError
  | Some channel =>
      match used !! channel with
      | Some _ => inr (delete channel used)
      | None => inl (KeyError channel)
      end
  end.

(** [PWMOutputDevice.close]: the exception raised, if any, and the device
    and [_channels_used] as the call leaves them. *)
Definition close (d : t) (used : gmap string Z)
    : option Exception * t * gmap string Z :=
  let d := _write 0 d in
  match del_channel (_pin_num d) used with
  | inl e => (Some e, d, used)
  | inr used' => (None, d, used')
  end.

(** [PWMOutputDevice._state_to_value]; [None] is the ZeroDivisionError of a
    duty factor 0. *)
Definition _state_to_value (d : t) (state : Z) : option Q :=
  if Qeq_bool (_duty_factor d) 0 then None
  else Some ((if _active_state d then inject_Z state else 1 - inject_Z state)
             / _duty_factor d)%Q.

(** [PWMOutputDevice._read] *)
Definition _read (d : t) : option Q := _state_to_value d (duty_u16 d).

(** [PWMOutputDevice.is_active]: [self.value != 0] *)
Definition is_active (d : t) : option bool := truthy <$> _read d.

(** [OutputDevice.on] and [OutputDevice.off] on a [PWMOutputDevice] *)
Definition on (d : t) : t := _write 1 d.
Definition off (d : t) : t := _write 0 d.

End PWMOutputDevice.

(** ** class PWMLED *)

Module PWMLED.

Record t : Type := mk {
  super : PWMOutputDevice.t;
  _brightness : Q
}.

(** [PWMLED._write] *)
Definition _write (value : Q) (d : t) : t :=
  mk (PWMOutputDevice._write (_brightness d * value) (super d)) (_brightness d).

(** [PWMLED.__init__(pin, active_high=True, initial_value=False)]: the
    constructor of [PWMOutputDevice] with the defaults [freq=100] and
    [duty_factor=65025], writing the initial value through [PWMLED._write]. *)
Definition __init__ (pin : Z) (active_high : bool) (initial_value : Q)
    (used : gmap string Z) : (Exception + t) * gmap string Z :=
  let brightness := 1%Q in
  match PWMOutputDevice._check_pwm_channel pin used with
  | inl e => (inl e, used)
  | inr used' =>
      (inr (_write initial_value
              (mk (PWMOutputDevice.mk pin 65025 active_high 0) brightness)),
       used')
  end.

(** [PWMOutputDevice.close] on a [PWMLED]. *)
Definition close (d : t) (used : gmap string Z)
    : option Exception * t * gmap string Z :=
  let d := _write 0 d in
  match PWMOutputDevice.del_channel (PWMOutputDevice._pin_num (super d)) used with
  | inl e => (Some e, d, used)
  | inr used' => (None, d, used')
  end.

(** The fade-in comprehension of [blink_generator]:
    [[(i * (1 / fps) / fade_in_time, 1 / fps)
      for i in range(int(fps * fade_in_time))]],
    read in exact arithmetic; [float_fade_in_steps] below has the
    rounding. *)
Definition fade_in_steps (fps fade_in_time : Q) : list (Q * Q) :=
  (fun i : Z => (inject_Z i * (1 / fps) / fade_in_time, 1 / fps)%Q)
    <$> py_range (py_int (fps * fade_in_time)).

(** The fade-out comprehension of [blink_generator], read in exact
    arithmetic. *)
Definition fade_out_steps (fps fade_out_time : Q) : list (Q * Q) :=
  (fun i : Z => (1 - inject_Z i * (1 / fps) / fade_out_time, 1 / fps)%Q)
    <$> py_range (py_int (fps * fade_out_time)).

(** [blink_generator], local to [PWMLED.blink]. *)
Definition blink_generator (on_time off_time fade_in_time fade_out_time fps : Q)
    : list (Q * Q) :=
  (if Qpos_b fade_in_time then fade_in_steps fps fade_in_time else [])
  ++ (if Qpos_b on_time then [(1%Q, on_time)] else [])
  ++ (if Qpos_b fade_out_time then fade_out_steps fps fade_out_time else [])
  ++ (if Qpos_b off_time then [(0%Q, off_time)] else []).

(** [PWMLED.blink(on_time=1, off_time=None, fade_in_time=0,
    fade_out_time=None, n=None, wait=False, fps=25)] *)
Definition blink (depth : nat) (d : OutputDevice.t) (on_time : Q)
    (off_time : option Q) (fade_in_time : Q) (fade_out_time : option Q)
    (n : option Z) (fps : Q) : option (ValueChange.t (V:=Q)) :=
  let log := OutputDevice.off d in
  let off_time := default on_time off_time in
  let fade_out_time := default fade_in_time fade_out_time in
  ValueChange._start_change 0%Q depth log
    (blink_generator on_time off_time fade_in_time fade_out_time fps) n.


(** The comprehensions and the generator of [blink] in floating point:
    every product, quotient and difference is the rounded one, as the
    interpreter computes it. *)
Definition float_fade_in_steps (fps fade_in_time : Q) : list (Q * Q) :=
  (fun i : Z =>
     (float_div (float_mul (inject_Z i) (float_div 1 fps)) fade_in_time,
      float_div 1 fps))
    <$> py_range (py_int (float_mul fps fade_in_time)).

Definition float_fade_out_steps (fps fade_out_time : Q) : list (Q * Q) :=
  (fun i : Z =>
     (float_sub 1
        (float_div (float_mul (inject_Z i) (float_div 1 fps)) fade_out_time),
      float_div 1 fps))
    <$> py_range (py_int (float_mul fps fade_out_time)).

Definition float_blink_generator
    (on_time off_time fade_in_time fade_out_time fps : Q) : list (Q * Q) :=
  (if Qpos_b fade_in_time then float_fade_in_steps fps fade_in_time else [])
  ++ (if Qpos_b on_time then [(1%Q, on_time)] else [])
  ++ (if Qpos_b fade_out_time then float_fade_out_steps fps fade_out_time
      else [])
  ++ (if Qpos_b off_time then [(0%Q, off_time)] else []).

(** [PWMLED._read] *)
Definition _read (d : t) : option Z :=
  (fun v => if Qpos_b v then 1 else 0) <$> PWMOutputDevice._read (super d).

(** The setter of [PWMLED.brightness] *)
Definition brightness_set (value : Q) (d : t) : t :=
  _write (if Qpos_b value then 1 else 0) (mk (super d) value).

End PWMLED.

(** [LED(pin, use_pwm=True, active_high=True, initial_value=False)] with
    [use_pwm=True]. *)
Definition LED (pin : Z) (used : gmap string Z)
    : (Exception + PWMLED.t) * gmap string Z :=
  PWMLED.__init__ pin true 0 used.

(** [pico_led = LED(25)], run when the module is imported, [_channels_used]
    being [{}] then. *)
Definition pico_led : (Exception + PWMLED.t) * gmap string Z := LED 25 ∅.

(** ** class RGBLED, with [pwm=True] *)

Module RGBLED.

(** A value given to the device: a number, or a tuple of numbers. *)
Inductive Value : Type :=
  | Scalar (q : Q)
  | Tuple (l : list Q).

(** [_leds] is the tuple of the three [PWMLED]s, [_last] the value that
    [toggle] restores. *)
Record t : Type := mk {
  _leds : list PWMLED.t;
  _last : Value
}.

(** [for led, v in zip(self._leds, value): led.brightness = v] *)
Fixpoint set_brightness (leds : list PWMLED.t) (value : list Q)
    : list PWMLED.t :=
  match leds, value with
  | led :: leds', v :: value' =>
      PWMLED.brightness_set v led :: set_brightness leds' value'
  | _, _ => leds
  end.

(** [RGBLED._write] *)
Definition _write (value : Value) (d : t) : t :=
  let value := match value with Scalar q => [q; q; q] | Tuple l => l end in
  mk (set_brightness (_leds d) value) (_last d).

(** The getter of [RGBLED.value] *)
Definition value (d : t) : list Q := PWMLED._brightness <$> _leds d.

(** The setter of [RGBLED.value] *)
Definition value_set (v : Value) (d : t) : t := _write v d.

(** [a == b] for two tuples of numbers *)
Fixpoint tuple_eqb (a b : list Q) : bool :=
  match a, b with
  | [], [] => true
  | x :: a', y :: b' => Qeq_bool x y && tuple_eqb a' b'
  | _, _ => false
  end.

(** [RGBLED.is_active] *)
Definition is_active (d : t) : bool := negb (tuple_eqb (value d) [0; 0; 0]%Q).

(** [RGBLED._to_255] *)
Definition _to_255 (v : Q) : Z := py_round (v * 255).

(** [RGBLED._from_255] *)
Definition _from_255 (v : Q) : Q := if Qeq_bool v 0 then 0%Q else (v / 255)%Q.

(** The getter and the setter of [RGBLED.color] *)
Definition color (d : t) : list Z := _to_255 <$> value d.
Definition color_set (c : list Q) (d : t) : t :=
  value_set (Tuple (_from_255 <$> c)) d.

(** [RGBLED.on], and the [off] and [close] of [OutputDevice] *)
Definition on (d : t) : t := value_set (Tuple [1; 1; 1]%Q) d.
Definition off (d : t) : t := value_set (Scalar 0) d.
Definition close (d : t) : t := value_set (Scalar 0) d.

(** The truth value of [self._last] *)
Definition value_truthy (v : Value) : bool :=
  match v with
  | Scalar q => truthy q
  | Tuple l => negb (bool_decide (l = []))
  end.

(** [RGBLED.toggle] *)
Definition toggle (d : t) : t :=
  if tuple_eqb (value d) [0; 0; 0]%Q then
    value_set (if value_truthy (_last d) then _last d
               else Tuple [1; 1; 1]%Q) d
  else
    value_set (Tuple [0; 0; 0]%Q) (mk (_leds d) (Tuple (value d))).

(** [tuple(PWMLED(pin, active_high=active_high) for pin in pins)]: the
    [PWMLED]s are constructed in turn, and the first exception ends the
    construction. *)
Fixpoint make_leds (pins : list Z) (active_high : bool)
    (used : gmap string Z) : (Exception + list PWMLED.t) * gmap string Z :=
  match pins with
  | [] => (inr [], used)
  | pin :: pins' =>
      match PWMLED.__init__ pin active_high 0 used with
      | (inl e, used') => (inl e, used')
      | (inr led, used') =>
          match make_leds pins' active_high used' with
          | (inl e, used'') => (inl e, used'')
          | (inr leds, used'') => (inr (led :: leds), used'')
          end
      end
  end.

(** [RGBLED.__init__(red, green, blue, active_high=True,
    initial_value=(0, 0, 0), pwm=True)] *)
Definition __init__ (red green blue : Z) (active_high : bool)
    (initial_value : Value) (used : gmap string Z)
    : (Exception + t) * gmap string Z :=
  match make_leds [red; green; blue] active_high used with
  | (inl e, used') => (inl e, used')
  | (inr leds, used') =>
      (inr (_write initial_value (mk leds initial_value)), used')
  end.

(** [on_times] and [fade_times]: one number for all the colors, or a
    tuple. *)
Inductive Times : Type :=
  | Same (q : Q)
  | Each (l : list Q).

(** [if type(times) is not tuple: times = (times, ) * len(colors)] *)
Definition expand (times : Times) (colors : list (list Q)) : list Q :=
  match times with
  | Same q => replicate (length colors) q
  | Each l => l
  end.

(** The palette [blink] works with: if any component is above 1, all are
    taken to be 0-255 values and divided by 255. *)
Definition normalise (colors : list (list Q)) : list (list Q) :=
  if existsb (fun v => negb (Qle_bool v 1)) (concat colors)
  then (fun t : list Q => _from_255 <$> t) <$> colors
  else colors.

(** [lerp], local to [blink_generator] *)
Definition lerp (t : Q) (fade_in : bool) (color1 color2 : list Q) : list Q :=
  (fun p : Q * Q =>
     let '(off, on) := p in
     if fade_in then ((1 - t) * off + t * on)%Q
     else ((1 - t) * on + t * off)%Q) <$> zip color2 color1.

(** One turn of the loop [for c in range(len(colors))] of
    [blink_generator]: the steps it yields, and the IndexError that ends
    the generator when a tuple of times is shorter than the palette. *)
Definition color_steps (fps : Q) (colors : list (list Q))
    (on_times fade_times : list Q) (c : nat)
    : list (Value * Q) * option Exception :=
  match fade_times !! c with
  | None => ([], Some IndexError)
  | Some fade =>
      let fades :=
        if Qpos_b fade then
          (fun i : Z =>
             (Tuple (lerp (inject_Z i * (1 / fps) / fade) true
                       (colors !!! ((c + 1) mod length colors)%nat)
                       (colors !!! c)),
              (1 / fps)%Q)) <$> py_range (py_int (fps * fade))
        else [] in
      match on_times !! c with
      | None => (fades, Some IndexError)
      | Some on_time =>
          (fades ++ (if Qpos_b on_time
                     then [(Tuple (colors !!! c), on_time)] else []),
           None)
      end
  end.

(** The turns for the colors [cs], in order. *)
Fixpoint blink_turns (fps : Q) (colors : list (list Q))
    (on_times fade_times : list Q) (cs : list nat)
    : list (Value * Q) * option Exception :=
  match cs with
  | [] => ([], None)
  | c :: cs' =>
      match color_steps fps colors on_times fade_times c with
      | (steps, Some e) => (steps, Some e)
      | (steps, None) =>
          let '(rest, e) := blink_turns fps colors on_times fade_times cs' in
          (steps ++ rest, e)
      end
  end.

(** Every component of every color of a palette is between [lo] and [hi]. *)
Definition within (lo hi : Q) (colors : list (list Q)) : Prop :=
  forall (t : list Q) (v : Q), t ∈ colors -> v ∈ t -> (lo <= v <= hi)%Q.

(** Two values that stand for the same numbers, and two lists of steps
    that do and last the same. *)
Definition same_value (a b : Value) : Prop :=
  match a, b with
  | Scalar x, Scalar y => (x == y)%Q
  | Tuple l, Tuple k => Forall2 Qeq l k
  | _, _ => False
  end.
Definition same_steps (a b : list (Value * Q)) : Prop :=
  Forall2 (fun x y : Value * Q => same_value x.1 y.1 /\ x.2 = y.2) a b.

(** [blink_generator], local to [RGBLED.blink(on_times=1, fade_times=0,
    colors=((1, 0, 0), (0, 1, 0), (0, 0, 1)), n=None, wait=False, fps=25)] *)
Definition blink_generator (on_times fade_times : Times)
    (colors : list (list Q)) (fps : Q)
    : list (Value * Q) * option Exception :=
  let on_times := expand on_times colors in
  let fade_times := expand fade_times colors in
  let colors := normalise colors in
  blink_turns fps colors on_times fade_times (seq 0 (length colors)).

End RGBLED.

(** ** class DigitalInputDevice *)

Module DigitalInputDevice.
Section Callbacks.

(** The callbacks a program attaches. *)
Context {C : Type}.

(** [_state] is the level of the pin the device has last recorded. *)
Record t : Type := mk {
  _active_state : bool;
  _state : Z;
  _when_activated : option C;
  _when_deactivated : option C
}.

(** [DigitalInputDevice.__init__(pin, pull_up=False, active_state=None,
    bounce_time=None)]; [level] is what [self._pin.value()] returns. *)
Definition __init__ (pull_up : bool) (active_state : option bool)
    (level : Z) : t :=
  mk (match active_state with
      | None => if pull_up then false else true
      | Some a => a
      end) level None None.

(** [DigitalInputDevice._state_to_value] *)
Definition _state_to_value (d : t) (state : Z) : Z :=
  Z.b2z (eqb (negb (state =? 0)) (_active_state d)).

(** [DigitalInputDevice._read], the [value] of the device *)
Definition _read (d : t) : Z := _state_to_value d (_state d).

(** [is_active] and [is_inactive] *)
Definition is_active (d : t) : bool := negb (_read d =? 0).
Definition is_inactive (d : t) : bool := negb (is_active d).

(** The property [when_activated]: its getter and its setter. *)
Definition when_activated (d : t) : option C := _when_activated d.
Definition when_activated_set (f : option C) (d : t) : t :=
  mk (_active_state d) (_state d) f (_when_deactivated d).

(** The property [when_deactivated]: the class body ends by binding the
    name to [when_activated.setter(...)], a property with the getter of
    [when_activated] and the setter written under it. *)
Definition when_deactivated (d : t) : option C := _when_activated d.
Definition when_deactivated_set (f : option C) (d : t) : t :=
  mk (_active_state d) (_state d) (_when_activated d) f.

(** [DigitalInputDevice._pin_change], from the re-enabling of the interrupt
    on: [last_state] is the level the first read, or the wait for stability,
    has settled on, [level] what [self._pin.value()] returns then.  The
    result is the device and the callbacks called. *)
Definition _pin_change (last_state level : Z) (d : t) : t * list C :=
  if negb (_state d =? last_state) then
    let d := mk (_active_state d) level (_when_activated d)
                (_when_deactivated d) in
    if is_active d then
      match _when_activated d with
      | Some f => (d, [f])
      | None => (d, [])
      end
    else
      match _when_deactivated d with
      | Some f => (d, [f])
      | None => (d, [])
      end
  else (d, []).

End Callbacks.
End DigitalInputDevice.

(** [Switch.__init__(pin, pull_up=True, bounce_time=0.02)] *)
Definition Switch {C : Type} (pull_up : bool) (level : Z)
    : DigitalInputDevice.t (C:=C) :=
  DigitalInputDevice.__init__ pull_up None level.

(** ** class AnalogInputDevice *)

Module AnalogInputDevice.

Record t : Type := mk {
  _active_state : bool;
  _threshold : Q
}.

(** [AnalogInputDevice._state_to_value] *)
Definition _state_to_value (d : t) (state : Z) : Q :=
  ((if _active_state d then inject_Z state else 1 - inject_Z state) / 65535)%Q.

(** [AnalogInputDevice._read], the [value] of the device; [state] is what
    [self._adc.read_u16()] returns. *)
Definition _read (d : t) (state : Z) : Q := _state_to_value d state.

(** [AnalogInputDevice.is_active] *)
Definition is_active (d : t) (state : Z) : bool :=
  negb (Qle_bool (_read d state) (_threshold d)).

(** [AnalogInputDevice.voltage] *)
Definition voltage (d : t) (state : Z) : Q := (_read d state * (33 # 10))%Q.

(** [AnalogInputDevice.percent] *)
Definition percent (d : t) (state : Z) : Z := py_int (_read d state * 100).

End AnalogInputDevice.

(** [pico_temp_conversion] *)
Definition pico_temp_conversion (voltage : Q) : Q :=
  (27 - (voltage - (706 # 1000)) / (1721 # 1000000))%Q.

(** [pico_temp_sensor = TemperatureSensor(4, True, 0.5,
    pico_temp_conversion)] and its [temp], for the reading [state] of the
    ADC. *)
Definition pico_temp_sensor : AnalogInputDevice.t :=
  AnalogInputDevice.mk true (1 # 2).
Definition pico_temp (state : Z) : Q :=
  pico_temp_conversion (AnalogInputDevice.voltage pico_temp_sensor state).

(** ** class PWMBuzzer *)

Module PWMBuzzer.

Definition NOTES : gmap string Z := list_to_map [
  ("b0", 31); ("c1", 33); ("c#1", 35); ("d1", 37); ("d#1", 39); ("e1", 41);
  ("f1", 44); ("f#1", 46); ("g1", 49); ("g#1", 52); ("a1", 55);
  ("a#1", 58); ("b1", 62); ("c2", 65); ("c#2", 69); ("d2", 73);
  ("d#2", 78); ("e2", 82); ("f2", 87); ("f#2", 93); ("g2", 98);
  ("g#2", 104); ("a2", 110); ("a#2", 117); ("b2", 123); ("c3", 131);
  ("c#3", 139); ("d3", 147); ("d#3", 156); ("e3", 165); ("f3", 175);
  ("f#3", 185); ("g3", 196); ("g#3", 208); ("a3", 220); ("a#3", 233);
  ("b3", 247); ("c4", 262); ("c#4", 277); ("d4", 294); ("d#4", 311);
  ("e4", 330); ("f4", 349); ("f#4", 370); ("g4", 392); ("g#4", 415);
  ("a4", 440); ("a#4", 466); ("b4", 494); ("c5", 523); ("c#5", 554);
  ("d5", 587); ("d#5", 622); ("e5", 659); ("f5", 698); ("f#5", 740);
  ("g5", 784); ("g#5", 831); ("a5", 880); ("a#5", 932); ("b5", 988);
  ("c6", 1047); ("c#6", 1109); ("d6", 1175); ("d#6", 1245); ("e6", 1319);
  ("f6", 1397); ("f#6", 1480); ("g6", 1568); ("g#6", 1661); ("a6", 1760);
  ("a#6", 1865); ("b6", 1976); ("c7", 2093); ("c#7", 2217); ("d7", 2349);
  ("d#7", 2489); ("e7", 2637); ("f7", 2794); ("f#7", 2960); ("g7", 3136);
  ("g#7", 3322); ("a7", 3520); ("a#7", 3729); ("b7", 3951); ("c8", 4186);
  ("c#8", 4435); ("d8", 4699); ("d#8", 4978)].

(** What [_to_freq] is given and returns: [None], a string, an int or a
    float. *)
Inductive PyVal : Type :=
  | PyNone
  | PyStr (s : string)
  | PyInt (z : Z)
  | PyFloat (q : Q).

Section ToFreq.

(** Python's floating-point power [x ** y]. *)
Variable float_pow : Q -> Q -> Q.

(** [PWMBuzzer._to_freq]; [numeric] is the branch of a number [q], an
    int or a float. *)
Definition _to_freq (freq : PyVal) : Exception + PyVal :=
  let numeric (q : Q) : Exception + PyVal :=
    if Qeq_bool q 0 then inr PyNone
    else if Qle_bool q 128 && Qpos_b q then
      let midi_factor := float_pow 2 (1 / 12) in
      inr (PyInt (py_int (440 * float_pow midi_factor (q - 69))))
    else inr freq in
  match freq with
  | PyNone => inr PyNone
  | PyStr s =>
      if bool_decide (s = "") then inr PyNone
      else match NOTES !! s with
           | Some f => inr (PyInt f)
           | None => inl (KeyError s)
           end
  | PyInt z => numeric (inject_Z z)
  | PyFloat q => numeric q
  end.

End ToFreq.

(** A value given to the buzzer: a single Python value, or a tuple
    [(freq, volume)]. *)
Inductive Value : Type :=
  | Scalar (v : PyVal)
  | Pair (freq : PyVal) (volume : Q).

(** [pwm_freq] is the frequency last given to [self._pwm.freq], [PyNone]
    when none has been. *)
Record t : Type := mk {
  super : PWMOutputDevice.t;
  pwm_freq : PyVal;
  _volume : Q;
  _bpm : Q
}.

(** [value == 0 or value is None or value == ''] *)
Definition silent (value : Value) : bool :=
  match value with
  | Scalar PyNone => true
  | Scalar (PyStr s) => bool_decide (s = "")
  | Scalar (PyInt z) => z =? 0
  | Scalar (PyFloat q) => Qeq_bool q 0
  | Pair _ _ => false
  end.

(** [freq is not None and freq is not '' and freq != 0] *)
Definition sounding (freq : PyVal) : bool :=
  match freq with
  | PyNone => false
  | PyStr s => negb (bool_decide (s = ""))
  | PyInt z => negb (z =? 0)
  | PyFloat q => negb (Qeq_bool q 0)
  end.

(** [super()._write(volume)] *)
Definition write_volume (volume : Q) (d : t) : t :=
  mk (PWMOutputDevice._write volume (super d)) (pwm_freq d) (_volume d) (_bpm d).

Section Write.

Variable float_pow : Q -> Q -> Q.

(** [PWMBuzzer._write] *)
Definition _write (value : Value) (d : t) : Exception + t :=
  if silent value then inr (write_volume 0 d)
  else
    let '(freq, volume) :=
      match value with
      | Scalar v => (v, _volume d)
      | Pair freq volume => (freq, volume)
      end in
    match _to_freq float_pow freq with
    | inl e => inl e
    | inr freq =>
        if sounding freq then
          inr (write_volume volume
                 (mk (super d) freq (_volume d) (_bpm d)))
        else inr (write_volume 0 d)
    end.

End Write.

(** What a tune generator can raise. *)
Inductive Raised : Type :=
  | Builtin (e : Exception)
  | TypeError
  | ValueError
  | UnboundLocalError
  | ZeroDivisionError.

Section Tune.

(** [float(s)] for a string: the number it denotes, or [None] for the
    ValueError of a string that denotes none. *)
Variable float_of_str : string -> option Q.

(** [float(v)] *)
Definition py_float (v : PyVal) : Raised + Q :=
  match v with
  | PyNone => inl TypeError
  | PyStr s =>
      match float_of_str s with Some q => inr q | None => inl ValueError end
  | PyInt z => inr (inject_Z z)
  | PyFloat q => inr q
  end.

(** [note == '' or note is None] *)
Definition is_rest (note : PyVal) : bool :=
  match note with
  | PyNone => true
  | PyStr s => bool_decide (s = "")
  | _ => false
  end.

(** [PWMBuzzer.to_seconds] *)
Definition to_seconds (bpm : Q) (duration : Q) : Raised + Q :=
  if Qeq_bool bpm 0 then inl ZeroDivisionError
  else inr (duration * 60 / bpm)%Q.

(** [tune_generator], local to [PWMBuzzer.play]: the steps it yields, and
    the exception that ends it if one does.  [duration] is the local
    variable of that name, [None] until it is assigned. *)
Fixpoint tune_generator (bpm volume multiplier : Q) (duration : option Q)
    (tune : list (list PyVal)) : list (Value * Q) * option Raised :=
  match tune with
  | [] => ([], None)
  | next :: tune' =>
      match next with
      | [] => ([], Some (Builtin IndexError))
      | note :: _ =>
          let assigned : Raised + option Q :=
            match next with
            | [_; d] =>
                match py_float d with
                | inl e => inl e
                | inr q =>
                    match to_seconds bpm q with
                    | inl e => inl e
                    | inr sec => inr (Some sec)
                    end
                end
            | _ => inr duration
            end in
          match assigned with
          | inl e => ([], Some e)
          | inr None => ([], Some UnboundLocalError)
          | inr (Some duration) =>
              let steps :=
                if is_rest note then [(Pair PyNone 0, duration)]
                else [(Pair note volume, duration * multiplier);
                      (Pair PyNone 0, duration * (1 - multiplier))]%Q in
              let '(rest, e) :=
                tune_generator bpm volume multiplier (Some duration) tune' in
              (steps ++ rest, e)
          end
      end
  end.

End Tune.

End PWMBuzzer.

(** * Properties *)

(** ** Python numbers *)

Lemma py_int_comp (q q' : Q) : (q == q')%Q -> py_int q = py_int q'.
Proof.
  intros H. unfold py_int.
  assert (Qle_bool 0 q = Qle_bool 0 q') as ->.
  { apply eq_true_iff_eq. rewrite !Qle_bool_iff. by rewrite H. }
  rewrite (Qfloor_comp _ _ H), (Qceiling_comp _ _ H). done.
Qed.

Lemma binary64_zero (q : Q) : (q == 0)%Q -> binary64 q = 0%Q.
Proof.
  intros H. unfold binary64. apply Qeq_bool_iff in H. by rewrite H.
Qed.

Lemma forallb_seqZ (f : Z -> bool) (m len x : Z) :
  forallb f (seqZ m len) = true -> m <= x < m + len -> f x = true.
Proof.
  intros H Hx. rewrite forallb_forall in H.
  apply H, list_elem_of_In, elem_of_seqZ. lia.
Qed.

(** [binary64] against the Standard Library's formalisation of IEEE 754
    arithmetic: on the grid of the fractions [n / d] with [-5 <= n <= 5]
    and [1 <= d <= 5], and on the inputs of the theorems below, the floats
    0.2, 2.01, 1.001 and 1.16, the product of the timer period and the
    operations of a fade, the results are the same. *)
Lemma binary64_agrees_with_spec_float :
  (forall n1 d1 n2 d2 : Z,
      -5 <= n1 <= 5 -> 1 <= d1 <= 5 -> -5 <= n2 <= 5 -> 1 <= d2 <= 5 ->
      agrees_with_spec_float n1 d1 n2 d2 = true)
  /\ agrees_with_spec_float 201 100 1000 1 = true
  /\ agrees_with_spec_float 1001 1000 1000 1 = true
  /\ agrees_with_spec_float 25 1 116 100 = true
  /\ agrees_with_spec_float 25 1 1 5 = true
  /\ agrees_with_spec_float 1 1 25 1 = true
  /\ Forall (fun i : Z =>
               Q_of_spec_float
                 (spec_div
                    (spec_mul (spec_float_of_Z i)
                       (spec_div (spec_float_of_Z 1) (spec_float_of_Z 25)))
                    (spec_float_of_ratio 1 5))
               = Some (float_div (float_mul (inject_Z i) (float_div 1 25))
                         (1 # 5))
               /\ Q_of_spec_float
                    (spec_sub (spec_float_of_Z 1)
                       (spec_div
                          (spec_mul (spec_float_of_Z i)
                             (spec_div (spec_float_of_Z 1)
                                (spec_float_of_Z 25)))
                          (spec_float_of_ratio 1 5)))
                  = Some (float_sub 1
                            (float_div
                               (float_mul (inject_Z i) (float_div 1 25))
                               (1 # 5))))
       [0; 1; 2; 3; 4].
Proof.
  split.
  { assert (H : forallb (fun n1 => forallb (fun d1 => forallb (fun n2 =>
                  forallb (fun d2 => agrees_with_spec_float n1 d1 n2 d2)
                    (seqZ 1 5)) (seqZ (-5) 11)) (seqZ 1 5)) (seqZ (-5) 11)
                = true) by (vm_compute; reflexivity).
    intros n1 d1 n2 d2 H1 H2 H3 H4.
    pose proof (forallb_seqZ _ _ _ n1 H ltac:(lia)) as Ha. cbv beta in Ha.
    pose proof (forallb_seqZ _ _ _ d1 Ha ltac:(lia)) as Hb. cbv beta in Hb.
    pose proof (forallb_seqZ _ _ _ n2 Hb ltac:(lia)) as Hc. cbv beta in Hc.
    exact (forallb_seqZ _ _ _ d2 Hc ltac:(lia)). }
  do 5 (split; [vm_compute; reflexivity|]).
  repeat first [apply List.Forall_cons | apply List.Forall_nil];
    (split; vm_compute; reflexivity).
Qed.

Lemma float_mul_zero (a b : Q) : (a == 0)%Q -> float_mul a b = 0%Q.
Proof.
  intros H. unfold float_mul. rewrite (binary64_zero a H).
  apply binary64_zero. ring.
Qed.

Lemma py_int_inject_Z (z : Z) : py_int (inject_Z z) = z.
Proof.
  unfold py_int. rewrite Qfloor_Z, Qceiling_Z. by destruct (Qle_bool _ _).
Qed.

(** [range(int(q))] has as many elements as [range(floor(q))]. *)
Lemma py_int_to_nat (q : Q) : Z.to_nat (py_int q) = Z.to_nat (Qfloor q).
Proof.
  unfold py_int. destruct (Qle_bool 0 q) eqn:E; [done|].
  assert (Hq : (q < 0)%Q).
  { apply Qnot_le_lt. intros H. apply Qle_bool_iff in H. congruence. }
  assert (Hc : Qceiling q <= 0).
  { change 0 with (Qceiling 0). apply Qceiling_resp_le. by apply Qlt_le_weak. }
  assert (Hf : Qfloor q <= 0).
  { change 0 with (Qfloor 0). apply Qfloor_resp_le. by apply Qlt_le_weak. }
  lia.
Qed.

Lemma length_py_range (m : Z) : length (py_range m) = Z.to_nat m.
Proof. unfold py_range. by rewrite length_fmap, length_seq. Qed.

Lemma lookup_py_range (m : Z) (i : nat) :
  (i < Z.to_nat m)%nat -> py_range m !! i = Some (Z.of_nat i).
Proof.
  intros Hi. unfold py_range. rewrite list_lookup_fmap.
  rewrite lookup_seq_lt by done. done.
Qed.

(** ** The value sequencer *)

Module ValueChangeFacts.
Import ValueChange.
Section Facts.
Context {V : Type} (zero : V).
Implicit Types (s : t (V:=V)) (cycle pre post : list (V * Q)).

Lemma expiries_snoc depth k s :
  expiries zero depth (S k) s = expiries zero depth k s ≫= expire zero depth.
Proof.
  revert s. induction k as [|k IH]; intros s.
  - simpl. by destruct (expire zero depth s).
  - change (expiries zero depth (S (S k)) s)
      with (expire zero depth s ≫= expiries zero depth (S k)).
    destruct (expire zero depth s) as [s1|] eqn:E; simpl; rewrite E; simpl; [|done].
    apply IH.
Qed.

Lemma expiries_add depth j k s :
  expiries zero depth (j + k) s = expiries zero depth j s ≫= expiries zero depth k.
Proof.
  revert s. induction j as [|j IH]; intros s; [done|].
  simpl. destruct (expire zero depth s); simpl; [apply IH|done].
Qed.

Ltac vc_simpl := cbn -[replicate concat Z.sub Z.add Z.of_nat].

Lemma expire_step cycle sink0 n depth q pre st post s :
  playing cycle sink0 n q pre (st :: post) s ->
  exists s', expire zero (S depth) s = Some s'
    /\ playing cycle sink0 n q (pre ++ [st]) post s'.
Proof.
  intros [Hg Hn Hgen Hsplit Hpre Ht Hr Ha Hs].
  destruct (last pre) as [lp|] eqn:Hlast;
    [|by apply last_None in Hlast].
  destruct st as [value seconds].
  unfold expire. rewrite Ht. vc_simpl. rewrite Hr, Hgen.
  eexists; split; [done|].
  split; vc_simpl; try done.
  - by rewrite Hsplit, <- app_assoc.
  - by destruct pre.
  - by rewrite last_snoc.
  - rewrite Hs, fmap_app, <- !app_assoc. done.
Qed.

Lemma expire_restart sink0 n depth q st rest s :
  playing (st :: rest) sink0 n q (st :: rest) [] s ->
  (fun m => m - Z.of_nat q - 1) <$> n ≠ Some 0 ->
  exists s', expire zero (S (S depth)) s = Some s'
    /\ playing (st :: rest) sink0 n (S q) [st] rest s'.
Proof.
  intros [Hg Hn Hgen Hsplit Hpre Ht Hr Ha Hs] Hne.
  destruct (last (st :: rest)) as [lp|] eqn:Hlast;
    [|by apply last_None in Hlast].
  unfold expire. rewrite Ht. vc_simpl. rewrite Hr, Hgen. vc_simpl.
  rewrite Hn, Hg.
  rewrite bool_decide_false; last first.
  { intros E. apply Hne. destruct n; simpl in *; [|done].
    by simplify_eq. }
  destruct st as [value seconds].
  eexists; split; [done|].
  split; vc_simpl; try done.
  - destruct n; simpl; [|done]. f_equal. lia.
  - rewrite Hs, replicate_S_end, concat_app. simpl.
    by rewrite !app_nil_r, <- !app_assoc.
Qed.

Lemma expire_complete cycle sink0 depth q s :
  playing cycle sink0 (Some (Z.of_nat q + 1)) q cycle [] s ->
  exists s', expire zero (S depth) s = Some s'
    /\ completed zero cycle sink0 (S q) s'.
Proof.
  intros [Hg Hn Hgen Hsplit Hpre Ht Hr Ha Hs].
  destruct (last cycle) as [lp|] eqn:Hlast;
    [|by apply last_None in Hlast].
  unfold expire. rewrite Ht. vc_simpl. rewrite Hr, Hgen. vc_simpl.
  rewrite Hn. vc_simpl.
  rewrite bool_decide_true by (f_equal; lia).
  eexists; split; [done|].
  unfold value_set, _stop_change. vc_simpl. rewrite Ha. vc_simpl.
  split; vc_simpl; try done.
  - f_equal. lia.
  - rewrite Hs, replicate_S_end, concat_app. simpl.
    by rewrite !app_nil_r, <- !app_assoc.
Qed.

Lemma start_playing sink0 n depth st rest :
  exists s, _start_change zero (S depth) sink0 (st :: rest) n = Some s
    /\ playing (st :: rest) sink0 n 0 [st] rest s.
Proof.
  unfold _start_change, __init__. vc_simpl.
  destruct st as [value seconds]. vc_simpl.
  eexists; split; [done|].
  split; vc_simpl; try done.
  destruct n; simpl; [|done]. f_equal. lia.
Qed.

(** While the repeat count does not reach zero the sequencer goes on
    playing, one step for each expiry of the timer. *)
Lemma expiries_playing cycle sink0 n depth k : forall q pre post s,
  playing cycle sink0 n q pre post s ->
  (forall N, n = Some N ->
     N <= 0 \/ Z.of_nat (q * length cycle + length pre + k)
               <= N * Z.of_nat (length cycle)) ->
  exists s' q' pre' post',
    expiries zero (S (S depth)) k s = Some s'
    /\ playing cycle sink0 n q' pre' post' s'
    /\ (q' * length cycle + length pre' = q * length cycle + length pre + k)%nat.
Proof.
  induction k as [|k IH]; intros q pre post s Hpl Hn.
  { exists s, q, pre, post. split; [done|]. split; [done|lia]. }
  assert (Hlen : length cycle = (length pre + length post)%nat).
  { rewrite (pl_split _ _ _ _ _ _ _ Hpl). apply length_app. }
  destruct post as [|st post].
  - assert (pre = cycle) as ->.
    { rewrite (pl_split _ _ _ _ _ _ _ Hpl). by rewrite app_nil_r. }
    destruct cycle as [|st rest]; [by destruct (pl_pre _ _ _ _ _ _ _ Hpl)|].
    destruct (expire_restart sink0 n depth q st rest s Hpl) as (s1 & E1 & Hpl1).
    { destruct n as [N|]; simpl; [|done].
      intros [= E]. destruct (Hn N eq_refl) as [?|Hlt]; [lia|].
      assert (N = Z.of_nat q + 1) as -> by lia. nia. }
    destruct (IH (S q) [st] rest s1 Hpl1) as (s' & q' & pre' & post' & E & Hpl' & Hcnt).
    { intros N HN. destruct (Hn N HN) as [?|Hlt]; [by left|right].
      simpl length in *. nia. }
    exists s', q', pre', post'. split; [|split; [done|]].
    + simpl expiries. rewrite E1. done.
    + rewrite Hcnt. simpl length. lia.
  - destruct (expire_step cycle sink0 n (S depth) q pre st post s Hpl) as (s1 & E1 & Hpl1).
    destruct (IH q (pre ++ [st]) post s1 Hpl1) as (s' & q' & pre' & post' & E & Hpl' & Hcnt).
    { intros N HN. destruct (Hn N HN) as [?|Hlt]; [by left|right].
      rewrite length_app. simpl length. nia. }
    exists s', q', pre', post'. split; [|split; [done|]].
    + simpl expiries. rewrite E1. done.
    + rewrite Hcnt, length_app. simpl. lia.
Qed.

(** A completed sequencer ignores the timer for good. *)
Lemma expiries_completed cycle sink0 depth k q s :
  completed zero cycle sink0 q s -> expiries zero depth k s = Some s.
Proof.
  intros Hco. induction k as [|k IH]; [done|].
  simpl. unfold expire. rewrite (co_timer _ _ _ _ _ Hco). done.
Qed.


Lemma length_concat_replicate {A} (l : list A) q :
  length (concat (replicate q l)) = (q * length l)%nat.
Proof.
  induction q as [|q IH]; [done|].
  simpl. rewrite length_app, IH. done.
Qed.

Lemma take_cycles {A} (l pre post : list A) (q N m : nat) :
  l = pre ++ post -> (q < N)%nat -> m = (q * length l + length pre)%nat ->
  take m (concat (replicate N l)) = concat (replicate q l) ++ pre.
Proof.
  intros Hl Hq ->.
  replace N with (q + S (N - S q))%nat by lia.
  rewrite replicate_add, concat_app.
  rewrite <- (length_concat_replicate l q), take_app_add.
  f_equal. simpl. rewrite Hl at 1. rewrite <- app_assoc.
  apply take_app_length.
Qed.

(** A sequencer whose repeat count is [None], or not positive, plays on
    and on. *)
Lemma play_unbounded cycle sink0 n depth k :
  cycle ≠ [] -> (2 <= depth)%nat ->
  (forall N, n = Some N -> N <= 0) ->
  exists s q,
    play zero depth sink0 cycle n k = Some s
    /\ _running s = true /\ is_Some (_timer s)
    /\ _n s = (fun m => m - Z.of_nat q) <$> n
    /\ sink s = sink0 ++ take (S k) (concat (replicate (S k) cycle.*1)).
Proof.
  intros Hne Hd Hn.
  destruct depth as [|[|depth]]; [lia|lia|].
  destruct cycle as [|st rest] eqn:Hc; [done|]. rewrite <- Hc in *.
  unfold play.
  destruct (start_playing sink0 n (S depth) st rest) as (s0 & E0 & Hpl0).
  rewrite <- Hc in *. rewrite E0. cbn [mbind option_bind].
  destruct (expiries_playing cycle sink0 n depth k 0 [st] rest s0 Hpl0)
    as (s & q & pre & post & E & Hpl & Hcnt).
  { intros N HN. left. by apply Hn. }
  exists s, q. split; [done|].
  destruct Hpl as [Hg Hn' Hgen Hsplit Hpre Ht Hr Ha Hs].
  split; [done|]. split.
  { rewrite Ht. destruct (last pre) eqn:El; [by eexists|].
    by apply last_None in El. }
  split; [done|].
  rewrite Hs. f_equal.
  assert (Hlen : (1 <= length pre)%nat) by (destruct pre; [done|simpl; lia]).
  assert (Hlc : (1 <= length cycle)%nat) by (rewrite Hc; simpl; lia).
  assert (Hq : (q < S k)%nat) by (simpl length in Hcnt; nia).
  symmetry. apply take_cycles with (post := post.*1); [|done|].
  - by rewrite Hsplit, fmap_app.
  - rewrite !length_fmap. simpl length in Hcnt. lia.
Qed.


(** With a repeat count [N >= 1] the sequencer is still playing after fewer
    than [N * length cycle] expiries. *)
Lemma play_bounded_running cycle sink0 (N : nat) depth k :
  cycle ≠ [] -> (2 <= depth)%nat -> (k < N * length cycle)%nat ->
  exists s q pre,
    play zero depth sink0 cycle (Some (Z.of_nat N)) k = Some s
    /\ playing cycle sink0 (Some (Z.of_nat N)) q pre (drop (length pre) cycle) s
    /\ (q * length cycle + length pre = S k)%nat
    /\ sink s = sink0 ++ take (S k) (concat (replicate N cycle.*1)).
Proof.
  intros Hne Hd Hk.
  destruct depth as [|[|depth]]; [lia|lia|].
  destruct cycle as [|st rest] eqn:Hc; [done|]. rewrite <- Hc in *.
  unfold play.
  destruct (start_playing sink0 (Some (Z.of_nat N)) (S depth) st rest)
    as (s0 & E0 & Hpl0).
  rewrite <- Hc in *. rewrite E0. cbn [mbind option_bind].
  destruct (expiries_playing cycle sink0 _ depth k 0 [st] rest s0 Hpl0)
    as (s & q & pre & post & E & Hpl & Hcnt).
  { intros N' [= <-]. right. simpl length. nia. }
  simpl length in Hcnt.
  assert (Hpost : post = drop (length pre) cycle).
  { rewrite (pl_split _ _ _ _ _ _ _ Hpl). by rewrite drop_app_length. }
  exists s, q, pre. rewrite <- Hpost.
  split; [done|]. split; [done|]. split; [lia|].
  destruct Hpl as [Hg Hn' Hgen Hsplit Hpre Ht Hr Ha Hs].
  rewrite Hs. f_equal.
  assert (Hlen : (1 <= length pre)%nat) by (destruct pre; [done|simpl; lia]).
  assert (Hlc : (1 <= length cycle)%nat) by (rewrite Hc; simpl; lia).
  symmetry. apply take_cycles with (post := post.*1).
  - by rewrite Hsplit, fmap_app.
  - nia.
  - rewrite !length_fmap. lia.
Qed.

(** With a repeat count [N >= 1] the expiry number [N * length cycle]
    completes the sequence. *)
Lemma play_bounded_completed cycle sink0 (N : nat) depth k :
  cycle ≠ [] -> (2 <= depth)%nat -> (1 <= N)%nat ->
  (N * length cycle <= k)%nat ->
  exists s,
    play zero depth sink0 cycle (Some (Z.of_nat N)) k = Some s
    /\ completed zero cycle sink0 N s.
Proof.
  intros Hne Hd HN Hk.
  assert (Hlc : (1 <= length cycle)%nat).
  { destruct cycle; [done|simpl; lia]. }
  destruct (play_bounded_running cycle sink0 N depth (N * length cycle - 1))
    as (s1 & q & pre & E1 & Hpl & Hcnt & _); [done|done|nia|].
  assert (Hsplit := pl_split _ _ _ _ _ _ _ Hpl).
  assert (Hlen : length cycle = (length pre + length (drop (length pre) cycle))%nat).
  { rewrite Hsplit at 1. apply length_app. }
  assert (Hpre : (1 <= length pre)%nat).
  { destruct pre; [by destruct (pl_pre _ _ _ _ _ _ _ Hpl)|simpl; lia]. }
  assert (Hq : N = S q) by nia.
  assert (Hfull : length pre = length cycle) by nia.
  assert (Hd0 : drop (length pre) cycle = []).
  { apply drop_ge. lia. }
  rewrite Hd0 in Hpl, Hsplit. rewrite app_nil_r in Hsplit. subst pre.
  replace (Z.of_nat N) with (Z.of_nat q + 1) in * by lia.
  destruct depth as [|depth]; [lia|].
  destruct (expire_complete cycle sink0 depth q s1 Hpl) as (s & E & Hco).
  exists s. rewrite <- Hq in Hco. split; [|done].
  unfold play in *.
  replace k with ((N * length cycle - 1) + (1 + (k - N * length cycle)))%nat by lia.
  destruct (_start_change zero (S depth) sink0 cycle (Some (Z.of_nat q + 1)))
    as [s0|]; [|done].
  cbn [mbind option_bind] in *.
  rewrite expiries_add, E1. cbn [mbind option_bind].
  rewrite expiries_add. cbn [expiries Nat.add mbind option_bind].
  rewrite E. cbn [mbind option_bind].
  by eapply expiries_completed.
Qed.


(** One call of [_set_value] on a sequencer whose generator yields at
    least one step needs two call frames at most. *)
Lemma generator_value_set value s :
  _generator (value_set value s) = _generator s.
Proof. unfold value_set, _stop_change. by destruct (attached s). Qed.

Lemma set_value_two_frames depth s :
  _generator s ≠ [] ->
  exists s', _set_value zero (S (S depth)) s = Some s'
    /\ _generator s' = _generator s.
Proof.
  intros Hne. cbn [_set_value].
  destruct (_running s) eqn:Hr; [|by exists s].
  destruct (_gen s) as [|[value seconds] rest];
    [|eexists; split; reflexivity].
  vc_simpl.
  case_bool_decide;
    [eexists; split; [reflexivity|];
     cbn [_generator set_running]; by rewrite generator_value_set|].
  rewrite Hr.
  destruct (_generator s) as [|[value seconds] rest] eqn:Hg; [done|].
  eexists; split; [reflexivity|]. vc_simpl. by rewrite Hg.
Qed.

Lemma expire_two_frames depth s :
  _generator s ≠ [] ->
  exists s', expire zero (S (S depth)) s = Some s'
    /\ _generator s' = _generator s.
Proof.
  intros Hne. unfold expire. destruct (_timer s); [|by exists s].
  by apply (set_value_two_frames depth (set_timer None s)).
Qed.

Lemma expiries_two_frames depth k s :
  _generator s ≠ [] ->
  exists s', expiries zero (S (S depth)) k s = Some s'
    /\ _generator s' = _generator s.
Proof.
  revert s. induction k as [|k IH]; intros s Hne; [by exists s|].
  destruct (expire_two_frames depth s Hne) as (s1 & E1 & Hg1).
  destruct (IH s1) as (s' & E & Hg); [by rewrite Hg1|].
  exists s'. cbn [expiries]. rewrite E1. split; [done|]. by rewrite Hg.
Qed.

(** A generator that yields nothing, restarted for ever, recurses until the
    call frames run out. *)
Lemma set_value_empty_generator depth s :
  _running s = true -> _gen s = [] -> _generator s = [] -> _n s = None ->
  _set_value zero depth s = None.
Proof.
  revert s. induction depth as [|depth IH]; intros s Hr Hgen Hg Hn; [done|].
  cbn [_set_value]. rewrite Hr, Hgen, Hn. vc_simpl.
  apply IH; vc_simpl; done.
Qed.

(** Each time the generator is exhausted the repeat count goes down by one,
    [None] staying [None]. *)
Lemma set_value_decrements depth s s' :
  _running s = true -> _gen s = [] -> _generator s ≠ [] ->
  _set_value zero (S (S depth)) s = Some s' ->
  _n s' = (fun n => n - 1) <$> _n s.
Proof.
  intros Hr Hgen Hne. cbn [_set_value]. rewrite Hr, Hgen. vc_simpl.
  case_bool_decide as Hz.
  - intros [= <-]. cbn [_n set_running]. unfold value_set, _stop_change.
    cbn [attached set_n]. by destruct (attached s).
  - rewrite Hr. destruct (_generator s) as [|[value seconds] rest]; [done|].
    by intros [= <-].
Qed.

(** C1.  A generator function that yields the same non-empty finite [cycle]
    on every call is played under a repeat count.  With [n = N], [N >= 1]:
    the [N] copies of the cycle hold [N * length cycle] step values; after
    [k < N * length cycle] expiries of the timer the sequencer is running,
    its timer armed, and the device has been written the first [k + 1] of
    them; from expiry [N * length cycle] on the device has been written all
    of them and then the neutral value [zero], once, and the sequencer is
    terminal: not running, its timer not armed.  With [n = None] the
    sequencer is running with its timer armed after any number of expiries,
    and what it has written is the first [k + 1] step values of the repeated
    cycle: never the neutral value of a completion. *)
Theorem sequencer_repeat_count (cycle : list (V * Q)) (sink0 : list V) (depth : nat) :
  cycle ≠ [] -> (2 <= depth)%nat ->
  (forall N : nat, (1 <= N)%nat ->
     length (concat (replicate N cycle.*1)) = (N * length cycle)%nat
     /\ (forall k, (k < N * length cycle)%nat ->
           exists s, play zero depth sink0 cycle (Some (Z.of_nat N)) k = Some s
             /\ _running s = true /\ is_Some (_timer s)
             /\ sink s = sink0 ++ take (S k) (concat (replicate N cycle.*1)))
     /\ (forall k, (N * length cycle <= k)%nat ->
           exists s, play zero depth sink0 cycle (Some (Z.of_nat N)) k = Some s
             /\ _running s = false /\ _timer s = None /\ _n s = Some 0
             /\ sink s = sink0 ++ concat (replicate N cycle.*1) ++ [zero]))
  /\ (forall k,
        exists s, play zero depth sink0 cycle None k = Some s
          /\ _running s = true /\ is_Some (_timer s) /\ _n s = None
          /\ sink s = sink0 ++ take (S k) (concat (replicate (S k) cycle.*1))).
Proof.
  intros Hne Hd. split.
  - intros N HN. split; [|split].
    + by rewrite length_concat_replicate, length_fmap.
    + intros k Hk.
      destruct (play_bounded_running cycle sink0 N depth k Hne Hd Hk)
        as (s & q & pre & E & Hpl & _ & Hs).
      exists s. split; [done|]. split; [apply Hpl|]. split; [|done].
      rewrite (pl_timer _ _ _ _ _ _ _ Hpl).
      destruct (last pre) eqn:El; [by eexists|].
      apply last_None in El. by destruct (pl_pre _ _ _ _ _ _ _ Hpl).
    + intros k Hk.
      destruct (play_bounded_completed cycle sink0 N depth k Hne Hd HN Hk)
        as (s & E & Hco).
      exists s. split; [done|]. by destruct Hco.
  - intros k.
    destruct (play_unbounded cycle sink0 None depth k Hne Hd) as (s & q & E & H);
      [done|].
    exists s. split; [done|]. apply H.
Qed.

(** C3.  [stop] is idempotent and changes nothing but the running flag and
    the timer, in whatever state it is called, a completed one included: a
    second [stop] leaves the state as the first did, the log of the device
    is as before, the flag is cleared and the timer not armed.  A callback
    [_set_value] that runs after [stop] returns the state unchanged: no
    write, no timer armed; and the timer, cancelled, does not expire into
    one. *)
Theorem stop_idempotent (s : t (V:=V)) (depth : nat) :
  stop (stop s) = stop s
  /\ sink (stop s) = sink s
  /\ _generator (stop s) = _generator s
  /\ _gen (stop s) = _gen s
  /\ _n (stop s) = _n s
  /\ attached (stop s) = attached s
  /\ _running (stop s) = false
  /\ _timer (stop s) = None
  /\ _set_value zero (S depth) (stop s) = Some (stop s)
  /\ expire zero (S depth) (stop s) = Some (stop s)
  /\ expire zero (S depth) (set_timer (_timer s) (stop s)) = Some (stop s).
Proof.
  repeat split.
  unfold expire. cbn [_timer set_timer stop set_running].
  by destruct (_timer s).
Qed.

(** C6.  On a sequencer whose generator yields at least one step, a step of
    duration zero is applied like any other: the callback writes its value,
    takes it off the generator and arms the timer, with period 0, for the
    next one; it does not go on to the next step itself.  One call of
    [_set_value] needs two call frames at most, the second for the restart
    of an exhausted generator, whatever the repeat count and the durations;
    so any number of expiries runs within two frames. *)
Theorem zero_duration_steps_use_timer (s : t (V:=V)) :
  _generator s ≠ [] ->
  (forall value seconds rest depth,
      _running s = true -> _gen s = (value, seconds) :: rest ->
      (seconds == 0)%Q ->
      _set_value zero (S depth) s
      = Some (set_timer (Some 0) (_write value (set_gen rest s))))
  /\ is_Some (_set_value zero 2 s)
  /\ (forall k, is_Some (expiries zero 2 k s)).
Proof.
  intros Hne. split; [|split].
  - intros value seconds rest depth Hr Hgen Hz.
    cbn [_set_value]. rewrite Hr, Hgen.
    by rewrite (float_mul_zero _ _ Hz).
  - destruct (set_value_two_frames 0 s Hne) as (s' & E & _). by exists s'.
  - intros k. destruct (expiries_two_frames 0 k s Hne) as (s' & E & _).
    by exists s'.
Qed.

End Facts.

Lemma sequencer_repeat_count_witness :
  [(1, 1); (0, 1)]%Q ≠ [] /\ (2 <= 2)%nat
  /\ (exists s, play 0%Q 2 [0%Q] [(1, 1); (0, 1)]%Q (Some 3) 6 = Some s
        /\ _running s = false /\ _timer s = None /\ _n s = Some 0
        /\ sink s = ([0] ++ concat (replicate 3 [1; 0]) ++ [0])%Q)
  /\ (exists s, play 0%Q 2 [0%Q] [(1, 1); (0, 1)]%Q None 100 = Some s
        /\ _running s = true /\ is_Some (_timer s) /\ _n s = None
        /\ sink s = ([0] ++ take 101 (concat (replicate 101 [1; 0])))%Q).
Proof.
  assert (H1 : [(1, 1); (0, 1)]%Q ≠ []) by discriminate.
  assert (H2 : (2 <= 2)%nat) by lia.
  split; [exact H1|]. split; [exact H2|].
  destruct (sequencer_repeat_count 0%Q [(1, 1); (0, 1)]%Q [0%Q] 2 H1 H2)
    as [Hfinite Hforever].
  split.
  - destruct (Hfinite 3%nat) as (_ & _ & Hdone); [lia|].
    apply (Hdone 6%nat). simpl. lia.
  - apply (Hforever 100%nat).
Defined.

Lemma zero_duration_steps_use_timer_witness :
  _generator (mk [(1, 0); (0, 0)]%Q (Some 2) [(1, 0); (0, 0)]%Q None true true []) ≠ []
  /\ _set_value 0%Q 1 (mk [(1, 0); (0, 0)]%Q (Some 2) [(1, 0); (0, 0)]%Q None true true [])
     = Some (mk [(1, 0); (0, 0)]%Q (Some 2) [(0, 0)]%Q (Some 0) true true [1%Q])
  /\ is_Some (expiries 0%Q 2 300
                (mk [(1, 0); (0, 0)]%Q (Some 2) [(1, 0); (0, 0)]%Q None true true [])).
Proof.
  assert (H : _generator (mk [(1, 0); (0, 0)]%Q (Some 2) [(1, 0); (0, 0)]%Q
                            None true true []) ≠ []) by discriminate.
  split; [exact H|].
  destruct (zero_duration_steps_use_timer 0%Q _ H) as (Hstep & _ & Hall).
  split.
  - apply (Hstep 1%Q 0%Q [(0, 0)]%Q 0%nat); reflexivity.
  - apply (Hall 300%nat).
Defined.

End ValueChangeFacts.

(** ** Binary blink *)

Module OutputDeviceFacts.
Import ValueChange.

(** C2, at the failing input.  [blink(on_time=1, off_time=None, n=0)] on a
    fresh device does not start a completed sequence: the first step is
    applied at once, and after any number [k] of expiries of the timer the
    sequencer is still running with its timer armed, has written [k + 1]
    step values and holds a repeat count that went from 0 downwards. *)
Theorem blink_repeat_count_zero_never_completes (k : nat) :
  exists s q,
    (OutputDevice.blink 2 (OutputDevice.Idle []) 1 None (Some 0)
       ≫= expiries 0%Q 2 k) = Some s
    /\ _running s = true /\ is_Some (_timer s)
    /\ _n s = Some (- Z.of_nat q)
    /\ sink s = ([0] ++ take (S k) (concat (replicate (S k) [1; 0])))%Q.
Proof.
  destruct (ValueChangeFacts.play_unbounded 0%Q
              (OutputDevice.blink_generator 1 1) [0%Q] (Some 0) 2 k)
    as (s & q & E & Hr & Ht & Hn & Hs); [done|lia| |].
  { by intros N [= <-]. }
  exists s, q. split; [exact E|]. split; [done|]. split; [done|].
  split; [|done]. rewrite Hn. simpl. done.
Qed.

(** C8.  [blink] with [off_time=None] is [blink] with [off_time] equal to
    [on_time]; with [on_time=1] the generator yields [(1, 1)], [(0, 1)] on
    each call, whatever the device and the repeat count.  The sequencer
    started applies the first step at once, after the 0 written by [off],
    and arms the timer with 1000 ms; a sequence of one cycle writes 1, 0 and
    then the 0 of its completion. *)
Theorem binary_blink_cycle (depth : nat) (d : OutputDevice.t) (n : option Z) :
  (forall on_time : Q,
      OutputDevice.blink depth d on_time None n
      = OutputDevice.blink depth d on_time (Some on_time) n)
  /\ (exists s,
        OutputDevice.blink (S depth) d 1 None n = Some s
        /\ _generator s = [(1, 1); (0, 1)]%Q
        /\ _gen s = [(0, 1)]%Q
        /\ sink s = OutputDevice.off d ++ [1%Q]
        /\ _timer s = Some 1000
        /\ _running s = true)
  /\ (exists s,
        (OutputDevice.blink (S (S depth)) d 1 None (Some 1)
           ≫= expiries 0%Q (S (S depth)) 2) = Some s
        /\ _generator s = [(1, 1); (0, 1)]%Q
        /\ sink s = OutputDevice.off d ++ [1; 0; 0]%Q
        /\ _running s = false).
Proof.
  split; [done|]. split.
  - by eexists.
  - eexists. split; [reflexivity|]. cbn. by rewrite <- !app_assoc.
Qed.

End OutputDeviceFacts.

(** ** The channel registry *)

Module PWMOutputDeviceFacts.
Import PWMOutputDevice.

Lemma check_occupied pin channel owner (used : gmap string Z) :
  py_getitem PIN_TO_PWM_CHANNEL pin = Some channel ->
  used !! channel = Some owner ->
  _check_pwm_channel pin used
  = inl (PWMChannelAlreadyInUse
           ("PWM channel " +:+ channel +:+ " is already in use by pin "
            +:+ pretty owner)).
Proof. intros Hc Hu. unfold _check_pwm_channel. by rewrite Hc, Hu. Qed.

Lemma check_free pin channel (used : gmap string Z) :
  py_getitem PIN_TO_PWM_CHANNEL pin = Some channel ->
  used !! channel = None ->
  _check_pwm_channel pin used = inr (<[channel := pin]> used).
Proof. intros Hc Hu. unfold _check_pwm_channel. by rewrite Hc, Hu. Qed.

Lemma del_channel_present pin channel owner (used : gmap string Z) :
  py_getitem PIN_TO_PWM_CHANNEL pin = Some channel ->
  used !! channel = Some owner ->
  del_channel pin used = inr (delete channel used).
Proof. intros Hc Hu. unfold del_channel. by rewrite Hc, Hu. Qed.

Lemma del_channel_absent pin channel (used : gmap string Z) :
  py_getitem PIN_TO_PWM_CHANNEL pin = Some channel ->
  used !! channel = None ->
  del_channel pin used = inl (KeyError channel).
Proof. intros Hc Hu. unfold del_channel. by rewrite Hc, Hu. Qed.

(** C4.  While [holder] holds [channel], constructing a [PWMOutputDevice] or
    a [PWMLED] on a pin of that channel raises [PWMChannelAlreadyInUse], with
    a message naming the channel and the pin of the holder, and leaves
    [_channels_used] as it was.  Closing the holder deletes the entry, and
    the same construction then returns a device and records its pin for the
    channel. *)
Theorem channel_conflict_is_typed (used : gmap string Z) (pin : Z)
    (channel : string) (holder : t) (duty_factor : Q) (active_high : bool)
    (initial_value : Q) :
  py_getitem PIN_TO_PWM_CHANNEL pin = Some channel ->
  py_getitem PIN_TO_PWM_CHANNEL (_pin_num holder) = Some channel ->
  used !! channel = Some (_pin_num holder) ->
  __init__ pin duty_factor active_high initial_value used
    = (inl (PWMChannelAlreadyInUse
              ("PWM channel " +:+ channel +:+ " is already in use by pin "
               +:+ pretty (_pin_num holder))),
       used)
  /\ PWMLED.__init__ pin active_high initial_value used
    = (inl (PWMChannelAlreadyInUse
              ("PWM channel " +:+ channel +:+ " is already in use by pin "
               +:+ pretty (_pin_num holder))),
       used)
  /\ exists holder' used',
       close holder used = (None, holder', used')
       /\ used' = delete channel used
       /\ (exists d, __init__ pin duty_factor active_high initial_value used'
                     = (inr d, <[channel := pin]> used')
                     /\ _pin_num d = pin)
       /\ (exists d, PWMLED.__init__ pin active_high initial_value used'
                     = (inr d, <[channel := pin]> used')
                     /\ _pin_num (PWMLED.super d) = pin).
Proof.
  intros Hpin Hholder Hused. split; [|split].
  - unfold __init__. by rewrite (check_occupied _ _ _ _ Hpin Hused).
  - unfold PWMLED.__init__. by rewrite (check_occupied _ _ _ _ Hpin Hused).
  - unfold close. cbn [_pin_num _write].
    rewrite (del_channel_present _ _ _ _ Hholder Hused).
    eexists _, _. split; [done|]. split; [done|].
    assert (Hfree : delete channel used !! channel = None)
      by apply lookup_delete_eq.
    split.
    + unfold __init__. rewrite (check_free _ _ _ Hpin Hfree). by eexists.
    + unfold PWMLED.__init__. rewrite (check_free _ _ _ Hpin Hfree). by eexists.
Qed.


(** C5, as the code has it.  [close] writes 0 to the device and deletes the
    entry of its channel: when the entry is there it is removed; when it is
    absent the [del] raises [KeyError], the registry staying as it was.  So
    the first [close] of a registered device returns and the second raises
    [KeyError]. *)
Theorem close_releases_present_entry_only (d : t) (used : gmap string Z)
    (channel : string) :
  py_getitem PIN_TO_PWM_CHANNEL (_pin_num d) = Some channel ->
  (is_Some (used !! channel) ->
     close d used = (None, _write 0 d, delete channel used)
     /\ delete channel used !! channel = None)
  /\ (used !! channel = None ->
        del_channel (_pin_num d) used = inl (KeyError channel)
        /\ close d used = (Some (KeyError channel), _write 0 d, used))
  /\ (is_Some (used !! channel) ->
        exists d' used',
          close d used = (None, d', used')
          /\ close d' used' = (Some (KeyError channel), d', used')).
Proof.
  intros Hc. split; [|split].
  - intros [owner Hu]. unfold close. cbn [_pin_num _write].
    rewrite (del_channel_present _ _ _ _ Hc Hu).
    split; [done|apply lookup_delete_eq].
  - intros Hu. rewrite (del_channel_absent _ _ _ Hc Hu). split; [done|].
    unfold close. cbn [_pin_num _write].
    by rewrite (del_channel_absent _ _ _ Hc Hu).
  - intros [owner Hu]. unfold close. cbn [_pin_num _write].
    rewrite (del_channel_present _ _ _ _ Hc Hu).
    eexists _, _. split; [done|]. cbn [_pin_num _write].
    rewrite (del_channel_absent _ channel); [done|done|].
    apply lookup_delete_eq.
Qed.

(** C5 as stated fails: the device constructed on pin 0 is closed twice, and
    the second [close] raises [KeyError]; so does deleting the entry of a
    channel that is not registered. *)
Lemma second_close_raises_KeyError :
  (exists d used d' used',
     __init__ 0 65025 true 0 ∅ = (inr d, used)
     /\ close d used = (None, d', used')
     /\ close d' used' = (Some (KeyError "0A"), d', used'))
  /\ del_channel 0 ∅ = inl (KeyError "0A").
Proof. split; [by eexists _, _, _, _|done]. Qed.

Lemma table_lookup (p : Z) :
  0 <= p < 30 ->
  py_getitem PIN_TO_PWM_CHANNEL p = PIN_TO_PWM_CHANNEL !! Z.to_nat p.
Proof.
  intros Hp. unfold py_getitem.
  rewrite bool_decide_true; [done|]. simpl. lia.
Qed.

Lemma table_alias (p : Z) :
  0 <= p <= 13 ->
  exists channel,
    py_getitem PIN_TO_PWM_CHANNEL p = Some channel
    /\ py_getitem PIN_TO_PWM_CHANNEL (p + 16) = Some channel.
Proof.
  intros Hp. rewrite !table_lookup by lia.
  assert (Hn : (Z.to_nat p <= 13)%nat) by lia.
  replace (Z.to_nat (p + 16)) with (Z.to_nat p + 16)%nat by lia.
  revert Hn. generalize (Z.to_nat p) as i. intros i Hi.
  do 14 (destruct i as [|i]; [by eexists|]). lia.
Qed.

(** C10.  For [0 <= p <= 13] the table gives pins [p] and [p + 16] the same
    channel, so once a device has been constructed on pin [p], constructing
    one on pin [p + 16] raises [PWMChannelAlreadyInUse], naming that channel
    and pin [p].  Importing the module constructs [pico_led] on pin 25, which
    records channel 4B; constructing a PWM device on pin 9 then raises
    [PWMChannelAlreadyInUse]. *)
Theorem aliased_pins_conflict :
  (forall (p : Z) (used0 used : gmap string Z) (d : t) (duty_factor : Q)
          (active_high : bool) (initial_value : Q),
      0 <= p <= 13 ->
      __init__ p duty_factor active_high initial_value used0 = (inr d, used) ->
      exists channel,
        py_getitem PIN_TO_PWM_CHANNEL p = Some channel
        /\ py_getitem PIN_TO_PWM_CHANNEL (p + 16) = Some channel
        /\ __init__ (p + 16) duty_factor active_high initial_value used
           = (inl (PWMChannelAlreadyInUse
                     ("PWM channel " +:+ channel +:+
                      " is already in use by pin " +:+ pretty p)),
              used))
  /\ (exists led, pico_led = (inr led, {["4B" := 25]}))
  /\ (forall (duty_factor : Q) (active_high : bool) (initial_value : Q),
        __init__ 9 duty_factor active_high initial_value pico_led.2
        = (inl (PWMChannelAlreadyInUse
                  "PWM channel 4B is already in use by pin 25"),
           pico_led.2)
        /\ PWMLED.__init__ 9 active_high initial_value pico_led.2
        = (inl (PWMChannelAlreadyInUse
                  "PWM channel 4B is already in use by pin 25"),
           pico_led.2)).
Proof.
  split; [|split].
  - intros p used0 used d duty_factor active_high initial_value Hp Hinit.
    destruct (table_alias p Hp) as (channel & Hc & Hc').
    exists channel. split; [done|]. split; [done|].
    unfold __init__, _check_pwm_channel in Hinit. rewrite Hc in Hinit.
    destruct (used0 !! channel) eqn:Hu; [done|]. simplify_eq.
    unfold __init__.
    rewrite (check_occupied _ channel p); [done|done|].
    apply lookup_insert_eq.
  - by eexists.
  - intros. split; reflexivity.
Qed.

Lemma channel_conflict_is_typed_witness :
  py_getitem PIN_TO_PWM_CHANNEL 9 = Some "4B"
  /\ py_getitem PIN_TO_PWM_CHANNEL (_pin_num (mk 25 65025 true 0)) = Some "4B"
  /\ ({["4B" := 25]} : gmap string Z) !! "4B" = Some (_pin_num (mk 25 65025 true 0))
  /\ __init__ 9 65025 true 0 {["4B" := 25]}
     = (inl (PWMChannelAlreadyInUse "PWM channel 4B is already in use by pin 25"),
        {["4B" := 25]}).
Proof.
  assert (H1 : py_getitem PIN_TO_PWM_CHANNEL 9 = Some "4B") by reflexivity.
  assert (H2 : py_getitem PIN_TO_PWM_CHANNEL (_pin_num (mk 25 65025 true 0))
               = Some "4B") by reflexivity.
  assert (H3 : ({["4B" := 25]} : gmap string Z) !! "4B"
               = Some (_pin_num (mk 25 65025 true 0))) by reflexivity.
  split; [exact H1|]. split; [exact H2|]. split; [exact H3|].
  exact (proj1 (channel_conflict_is_typed {["4B" := 25]} 9 "4B"
                  (mk 25 65025 true 0) 65025 true 0 H1 H2 H3)).
Defined.

Lemma close_releases_present_entry_only_witness :
  py_getitem PIN_TO_PWM_CHANNEL (_pin_num (mk 0 65025 true 0)) = Some "0A"
  /\ ((∅ : gmap string Z) !! "0A" = None ->
        close (mk 0 65025 true 0) ∅
        = (Some (KeyError "0A"), _write 0 (mk 0 65025 true 0), ∅))
  /\ close (mk 0 65025 true 0) ∅
     = (Some (KeyError "0A"), _write 0 (mk 0 65025 true 0), ∅).
Proof.
  assert (H1 : py_getitem PIN_TO_PWM_CHANNEL (_pin_num (mk 0 65025 true 0))
               = Some "0A") by reflexivity.
  assert (H2 : (∅ : gmap string Z) !! "0A" = None) by reflexivity.
  destruct (close_releases_present_entry_only (mk 0 65025 true 0) ∅ "0A" H1)
    as (_ & Habsent & _).
  split; [exact H1|]. split; [intros H; exact (proj2 (Habsent H))|].
  exact (proj2 (Habsent H2)).
Defined.

Lemma aliased_pins_conflict_witness :
  0 <= 9 <= 13
  /\ __init__ 9 65025 true 0 ∅ = (inr (mk 9 65025 true 0), {["4B" := 9]})
  /\ exists channel,
       py_getitem PIN_TO_PWM_CHANNEL 9 = Some channel
       /\ py_getitem PIN_TO_PWM_CHANNEL (9 + 16) = Some channel
       /\ __init__ (9 + 16) 65025 true 0 {["4B" := 9]}
          = (inl (PWMChannelAlreadyInUse
                    ("PWM channel " +:+ channel +:+
                     " is already in use by pin " +:+ pretty 9)),
             {["4B" := 9]}).
Proof.
  assert (H1 : 0 <= 9 <= 13) by lia.
  assert (H2 : __init__ 9 65025 true 0 ∅
               = (inr (mk 9 65025 true 0), {["4B" := 9]})) by reflexivity.
  split; [exact H1|]. split; [exact H2|].
  exact (proj1 aliased_pins_conflict 9 ∅ {["4B" := 9]} (mk 9 65025 true 0)
           65025%Q true 0%Q H1 H2).
Defined.

End PWMOutputDeviceFacts.

(** ** The pattern builders *)

Module PWMLEDFacts.
Import PWMLED.

Lemma fade_value (i fps T : Q) : (i * (1 / fps) / T == i / (fps * T))%Q.
Proof.
  unfold Qdiv. rewrite Qinv_mult_distr. ring.
Qed.

Lemma Qpos_b_false (q : Q) : (q <= 0)%Q -> Qpos_b q = false.
Proof.
  intros H. unfold Qpos_b. apply Qle_bool_iff in H. by rewrite H.
Qed.

Lemma Qpos_b_true (q : Q) : (0 < q)%Q -> Qpos_b q = true.
Proof.
  intros H. unfold Qpos_b. destruct (Qle_bool q 0) eqn:E; [|done].
  apply Qle_bool_iff in E. exfalso. by apply (Qlt_not_le _ _ H).
Qed.

(** C7, as the code has it.  The arithmetic is the floating-point one.  A
    fade phase of [T] seconds at [fps] frames per second has
    [int(fps * T)] steps, the product being the rounded one (none when
    that is not positive); step [i] has the value [i * (1 / fps) / T] when
    fading in and 1 minus that when fading out, each operation rounded, and
    lasts [1 / fps]; the first fade-in value is 0.  With the hold times 0,
    a generator with one fade phase of positive length yields just these
    steps, and one whose fade phases have length zero yields none.  For
    [fade_in_time = 0.2] and [fps = 25] the steps are five, each lasting
    the float 0.04, of values 0.0, 0.19999999999999998,
    0.39999999999999997, 0.6 and 0.7999999999999999: [i / 5] to within
    [2 ^ -53], and the float nearest to [i / 5] for [i = 0] and [i = 3]
    only.  For [fade_in_time = 1.16] the steps are 28: the float 1.16 is
    below 1.16, and so is the product. *)
Theorem fade_phase_steps (fps T : Q) :
  length (float_fade_in_steps fps T) = Z.to_nat (Qfloor (float_mul fps T))
  /\ length (float_fade_out_steps fps T)
     = Z.to_nat (Qfloor (float_mul fps T))
  /\ (forall i : nat, (i < Z.to_nat (Qfloor (float_mul fps T)))%nat ->
        exists v,
          float_fade_in_steps fps T !! i = Some (v, float_div 1 fps)
          /\ float_fade_out_steps fps T !! i
             = Some (float_sub 1 v, float_div 1 fps)
          /\ v = float_div
                   (float_mul (inject_Z (Z.of_nat i)) (float_div 1 fps)) T
          /\ (i = 0%nat -> v = 0%Q))
  /\ ((0 < T)%Q ->
        float_blink_generator 0 0 T 0 fps = float_fade_in_steps fps T
        /\ float_blink_generator 0 0 0 T fps = float_fade_out_steps fps T)
  /\ ((T <= 0)%Q -> float_blink_generator 0 0 T T fps = [])
  /\ float_fade_in_steps 25 (1 # 5)
     = [(0, binary64 (1 # 25));
        (7205759403792793 # 36028797018963968, binary64 (1 # 25));
        (7205759403792793 # 18014398509481984, binary64 (1 # 25));
        (5404319552844595 # 9007199254740992, binary64 (1 # 25));
        (7205759403792793 # 9007199254740992, binary64 (1 # 25))]%Q
  /\ Forall2 (fun (st : Q * Q) (i : Z) =>
                (Qabs (st.1 - inject_Z i / 5) <= 1 # 2 ^ 53)%Q
                /\ (is_binary64 st.1 = true)
                /\ (st.1 = binary64 (inject_Z i / 5) <-> i = 0 \/ i = 3))
       (float_fade_in_steps 25 (1 # 5)) [0; 1; 2; 3; 4]
  /\ length (float_fade_in_steps 25 (116 # 100)) = 28%nat.
Proof.
  split; [|split; [|split; [|split; [|split; [|split; [|split]]]]]].
  - unfold float_fade_in_steps.
    rewrite length_fmap, length_py_range, py_int_to_nat. reflexivity.
  - unfold float_fade_out_steps.
    rewrite length_fmap, length_py_range, py_int_to_nat. reflexivity.
  - intros i Hi. rewrite <- py_int_to_nat in Hi.
    unfold float_fade_in_steps, float_fade_out_steps.
    rewrite !list_lookup_fmap, (lookup_py_range _ _ Hi).
    cbn [fmap option_fmap option_map].
    eexists. split; [reflexivity|]. split; [reflexivity|].
    split; [reflexivity|].
    intros ->. unfold float_div at 1.
    rewrite (float_mul_zero (inject_Z (Z.of_nat 0)) (float_div 1 fps))
      by reflexivity.
    apply binary64_zero. rewrite (binary64_zero 0) by reflexivity.
    unfold Qdiv. apply Qmult_0_l.
  - intros HT. unfold float_blink_generator.
    rewrite (Qpos_b_true _ HT), (Qpos_b_false 0) by apply Qle_refl.
    rewrite !app_nil_r. split; reflexivity.
  - intros HT. unfold float_blink_generator.
    rewrite (Qpos_b_false _ HT), (Qpos_b_false 0) by apply Qle_refl.
    reflexivity.
  - vm_compute. reflexivity.
  - vm_compute float_fade_in_steps.
    repeat first [apply List.Forall2_cons | apply List.Forall2_nil].
    all: cbn [fst].
    all: split; [vm_compute; discriminate|].
    all: split; [vm_compute; reflexivity|].
    all: split;
      [intros H; vm_compute in H; try discriminate H; lia
      |intros [H | H]; try discriminate H; vm_compute; reflexivity].
  - vm_compute. reflexivity.
Qed.

(** C7 as stated fails: for [fade_in_time = 0.2] and [fps = 25] the fade-in
    steps are five, but their values are not 0.0, 0.08, 0.16, 0.24, 0.32,
    as rationals or as floats: the second value is above 0.19. *)
Lemma fade_in_values_are_not_multiples_of_0_08 :
  length (float_fade_in_steps 25 (1 # 5)) = 5%nat
  /\ ~ Forall2 Qeq (float_fade_in_steps 25 (1 # 5)).*1
         [0; 8 # 100; 16 # 100; 24 # 100; 32 # 100]%Q
  /\ ~ Forall2 Qeq (float_fade_in_steps 25 (1 # 5)).*1
         (binary64 <$> [0; 8 # 100; 16 # 100; 24 # 100; 32 # 100]%Q)
  /\ (exists v d, float_fade_in_steps 25 (1 # 5) !! 1%nat = Some (v, d)
                  /\ (19 # 100 < v)%Q).
Proof.
  split; [vm_compute; reflexivity|]. split; [|split].
  - intros H. vm_compute in H. apply Forall2_cons_1 in H as [_ H].
    apply Forall2_cons_1 in H as [H _]. discriminate H.
  - intros H. vm_compute in H. apply Forall2_cons_1 in H as [_ H].
    apply Forall2_cons_1 in H as [H _]. discriminate H.
  - exists (7205759403792793 # 36028797018963968)%Q, (binary64 (1 # 25)).
    split; vm_compute; reflexivity.
Qed.

Lemma fade_phase_steps_witness :
  (3 < Z.to_nat (Qfloor (float_mul 25 (1 # 5))))%nat /\ (0 < 1 # 5)%Q
  /\ (-1 <= 0)%Q
  /\ (exists v,
        float_fade_in_steps 25 (1 # 5) !! 3%nat = Some (v, float_div 1 25)
        /\ float_fade_out_steps 25 (1 # 5) !! 3%nat
           = Some (float_sub 1 v, float_div 1 25)
        /\ v = float_div (float_mul (inject_Z (Z.of_nat 3)) (float_div 1 25))
                 (1 # 5)
        /\ (3%nat = 0%nat -> v = 0%Q))
  /\ float_blink_generator 0 0 (1 # 5) 0 25 = float_fade_in_steps 25 (1 # 5)
  /\ float_blink_generator 0 0 (-1) (-1) 25 = [].
Proof.
  assert (H1 : (3 < Z.to_nat (Qfloor (float_mul 25 (1 # 5))))%nat)
    by (vm_compute; lia).
  assert (H2 : (0 < 1 # 5)%Q) by reflexivity.
  assert (H3 : (-1 <= 0)%Q) by discriminate.
  destruct (fade_phase_steps 25 (1 # 5)) as (_ & _ & Hsteps & Hgen & _).
  destruct (fade_phase_steps 25 (-1)) as (_ & _ & _ & _ & Hnone & _).
  split; [exact H1|]. split; [exact H2|]. split; [exact H3|].
  split; [exact (Hsteps 3%nat H1)|].
  split; [exact (proj1 (Hgen H2))|exact (Hnone H3)].
Defined.

End PWMLEDFacts.

Module PWMBuzzerFacts.
Import PWMBuzzer.

Lemma Qle_bool_inject_Z (a b : Z) : Qle_bool (a # 1) (b # 1) = (a <=? b).
Proof. unfold Qle_bool. simpl. by rewrite !Z.mul_1_r. Qed.

Lemma Qeq_bool_inject_Z (a b : Z) : Qeq_bool (a # 1) (b # 1) = (a =? b).
Proof. unfold Qeq_bool. simpl. by rewrite !Z.mul_1_r. Qed.

Section ToFreq.
Variable float_pow : Q -> Q -> Q.

Lemma to_freq_midi (z : Z) :
  0 < z <= 128 ->
  _to_freq float_pow (PyInt z)
  = inr (PyInt (py_int (440 * float_pow (float_pow 2 (1 / 12))
                                (inject_Z z - 69)))).
Proof.
  intros Hz. unfold _to_freq, Qpos_b, inject_Z.
  rewrite Qeq_bool_inject_Z, !Qle_bool_inject_Z.
  rewrite (proj2 (Z.eqb_neq _ _)) by lia.
  rewrite (proj2 (Z.leb_le _ _)) by lia.
  by rewrite (proj2 (Z.leb_gt _ _)) by lia.
Qed.

Lemma to_freq_raw (z : Z) :
  128 < z -> _to_freq float_pow (PyInt z) = inr (PyInt z).
Proof.
  intros Hz. unfold _to_freq, inject_Z.
  rewrite Qeq_bool_inject_Z, !Qle_bool_inject_Z.
  rewrite (proj2 (Z.eqb_neq _ _)) by lia.
  by rewrite (proj2 (Z.leb_gt _ _)) by lia.
Qed.

(** C9.  Python's power being such that [x ** 0] is 1: the name "a4" is in
    [NOTES] with 440 and resolves to it; an int [z] with [0 < z <= 128] is a
    MIDI number and resolves to [int(440 * (2 ** (1/12)) ** (z - 69))], which
    for 69 is 440; 220, and any int above 128, is returned as it is. *)
Theorem tone_resolution :
  (forall x e : Q, (e == 0)%Q -> (float_pow x e == 1)%Q) ->
  NOTES !! "a4" = Some 440
  /\ _to_freq float_pow (PyStr "a4") = inr (PyInt 440)
  /\ (forall z : Z, 0 < z <= 128 ->
        _to_freq float_pow (PyInt z)
        = inr (PyInt (py_int (440 * float_pow (float_pow 2 (1 / 12))
                                      (inject_Z z - 69)))))
  /\ _to_freq float_pow (PyInt 69) = inr (PyInt 440)
  /\ _to_freq float_pow (PyInt 220) = inr (PyInt 220)
  /\ (forall z : Z, 128 < z -> _to_freq float_pow (PyInt z) = inr (PyInt z)).
Proof.
  intros Hpow. split; [|split; [|split; [|split; [|split]]]].
  - reflexivity.
  - reflexivity.
  - apply to_freq_midi.
  - rewrite to_freq_midi by lia. do 2 f_equal.
    rewrite (py_int_comp _ (inject_Z 440)); [apply py_int_inject_Z|].
    rewrite Hpow; [reflexivity|reflexivity].
  - apply to_freq_raw. lia.
  - apply to_freq_raw.
Qed.

End ToFreq.

Lemma tone_resolution_witness :
  (forall x e : Q, (e == 0)%Q -> (Qpower x (Qfloor e) == 1)%Q)
  /\ _to_freq (fun x e => Qpower x (Qfloor e)) (PyStr "a4") = inr (PyInt 440)
  /\ _to_freq (fun x e => Qpower x (Qfloor e)) (PyInt 69) = inr (PyInt 440)
  /\ _to_freq (fun x e => Qpower x (Qfloor e)) (PyInt 220) = inr (PyInt 220).
Proof.
  assert (H : forall x e : Q, (e == 0)%Q -> (Qpower x (Qfloor e) == 1)%Q).
  { intros x e He. rewrite (Qfloor_comp e 0 He). reflexivity. }
  split; [exact H|].
  destruct (tone_resolution (fun x e => Qpower x (Qfloor e)) H)
    as (_ & Hname & _ & Hmidi & Hraw & _).
  split; [exact Hname|]. split; [exact Hmidi|exact Hraw].
Defined.

End PWMBuzzerFacts.

(** * Further properties of the code *)

(** ** Python numbers, continued *)

Lemma truthy_spec (q : Q) : truthy q = true <-> ~ (q == 0)%Q.
Proof.
  unfold truthy. rewrite negb_true_iff.
  split.
  - intros H Hq. apply Qeq_bool_iff in Hq. congruence.
  - intros H. destruct (Qeq_bool q 0) eqn:E; [|done].
    apply Qeq_bool_iff in E. done.
Qed.

Lemma py_int_nonneg (q : Q) : (0 <= q)%Q -> py_int q = Qfloor q.
Proof. intros H. unfold py_int. apply Qle_bool_iff in H. by rewrite H. Qed.

Lemma py_int_le (q : Q) : (0 <= q)%Q -> (inject_Z (py_int q) <= q)%Q.
Proof. intros H. rewrite (py_int_nonneg _ H). apply Qfloor_le. Qed.

Lemma py_int_small (q : Q) : (q < 1)%Q -> py_int q <= 0.
Proof.
  intros H. unfold py_int. destruct (Qle_bool 0 q) eqn:E.
  - assert (Hf : Qfloor q < 1).
    { apply Z.lt_nge. intros Hge.
      assert (Hq : (inject_Z 1 <= q)%Q).
      { eapply Qle_trans; [|apply Qfloor_le]. by rewrite <- Zle_Qle. }
      apply (Qlt_not_le _ _ H Hq). }
    lia.
  - assert (Hq : (q <= 0)%Q).
    { apply Qlt_le_weak, Qnot_le_lt. intros Hle.
      apply Qle_bool_iff in Hle. congruence. }
    apply (Qceiling_resp_le _ 0 Hq).
Qed.

Lemma elem_of_py_range (m i : Z) : i ∈ py_range m -> 0 <= i < m.
Proof.
  unfold py_range. intros H. apply list_elem_of_fmap in H as (j & -> & Hj).
  apply elem_of_seq in Hj. lia.
Qed.

Lemma Qpos_b_lt (q : Q) : Qpos_b q = true -> (0 < q)%Q.
Proof.
  intros Hq. unfold Qpos_b in Hq. apply Qnot_le_lt. intros Hle.
  apply Qle_bool_iff in Hle. by rewrite Hle in Hq.
Qed.

Lemma py_round_comp (q q' : Q) : (q == q')%Q -> py_round q = py_round q'.
Proof.
  intros H. unfold py_round. rewrite (Qfloor_comp _ _ H).
  assert (Hc : (q - inject_Z (Qfloor q') ?= 1 # 2)%Q
               = (q' - inject_Z (Qfloor q') ?= 1 # 2)%Q) by (by rewrite H).
  by rewrite Hc.
Qed.

Lemma py_round_inject_Z (z : Z) : py_round (inject_Z z) = z.
Proof.
  unfold py_round. rewrite Qfloor_Z.
  assert (Hc : (inject_Z z - inject_Z z ?= 1 # 2)%Q = Lt).
  { apply (proj1 (Qlt_alt _ _)).
    assert (H0 : (inject_Z z - inject_Z z == 0)%Q) by ring.
    rewrite H0. reflexivity. }
  by rewrite Hc.
Qed.

(** The fraction of a fade phase of [T] seconds that frame [i] stands
    for. *)
Lemma fade_fraction (fps T : Q) (i : Z) :
  i ∈ py_range (py_int (fps * T)) -> (0 < T)%Q ->
  (0 < fps)%Q
  /\ (0 <= inject_Z i * (1 / fps) / T)%Q
  /\ (inject_Z i * (1 / fps) / T < 1)%Q.
Proof.
  intros Hi HT. apply elem_of_py_range in Hi.
  assert (Hx : (0 <= fps * T)%Q).
  { destruct (Qlt_le_dec (fps * T) 0) as [Hneg|]; [|done].
    assert (py_int (fps * T) <= 0); [|lia].
    apply py_int_small. eapply Qlt_trans; [exact Hneg|reflexivity]. }
  assert (Hi' : (inject_Z i + 1 <= fps * T)%Q).
  { eapply Qle_trans; [|apply (py_int_le _ Hx)].
    change 1%Q with (inject_Z 1).
    rewrite <- inject_Z_plus, <- Zle_Qle. lia. }
  assert (Hi0 : (0 <= inject_Z i)%Q).
  { change 0%Q with (inject_Z 0). rewrite <- Zle_Qle. lia. }
  assert (Hpos : (0 < fps * T)%Q) by lra.
  assert (Hfps : (0 < fps)%Q).
  { destruct (Qlt_le_dec 0 fps) as [|Hle]; [done|].
    exfalso. apply (Qlt_not_le _ _ Hpos).
    rewrite <- (Qmult_0_l T).
    apply Qmult_le_compat_r; [done|by apply Qlt_le_weak]. }
  split; [done|].
  rewrite PWMLEDFacts.fade_value.
  split.
  - apply Qle_shift_div_l; [done|]. by rewrite Qmult_0_l.
  - apply Qlt_shift_div_r; [done|]. lra.
Qed.

(** ** The value sequencer, continued *)

Module ValueChangeMore.
Import ValueChange.
Section Facts.
Context {V : Type} (zero : V).
Implicit Types (s : t (V:=V)).

(** X1.  Whatever the state and the call frames, a call of [_set_value]
    that returns keeps the generator function and does one of three things:
    on a sequencer that is not running, nothing; on a running one, either
    it writes one step value and leaves the sequencer running with its timer
    armed, or it writes the neutral value once and leaves it not running
    with the repeat count at 0. *)
Theorem callback_writes_once_and_rearms (depth : nat) s s' :
  _set_value zero depth s = Some s' ->
  _generator s' = _generator s
  /\ (_running s = false -> s' = s)
  /\ (_running s = true ->
        (exists value, sink s' = sink s ++ [value]
           /\ _running s' = true /\ is_Some (_timer s'))
        \/ (sink s' = sink s ++ [zero]
            /\ _running s' = false /\ _n s' = Some 0)).
Proof.
  revert s. induction depth as [|depth IH]; intros s; [done|].
  cbn [_set_value].
  destruct (_running s) eqn:Hr; [|by intros [= <-]].
  destruct (_gen s) as [|[value seconds] rest] eqn:Hgen.
  - cbn zeta. case_bool_decide as Hz.
    + intros [= <-]. unfold value_set, _stop_change. cbn [attached set_n].
      split; [by destruct (attached s)|]. split; [done|]. intros _. right.
      by destruct (attached s).
    + intros E. apply IH in E as (Hg & _ & Hrun).
      split; [done|]. split; [done|]. intros _.
      by apply Hrun.
  - intros [= <-]. split; [done|]. split; [done|]. intros _. left.
    exists value. by cbn.
Qed.

Lemma set_value_empty_counted (sink0 : list V) (depth N : nat) :
  (1 <= N)%nat ->
  _set_value zero depth (mk [] (Some (Z.of_nat N)) [] None true false sink0)
  = if (N <=? depth)%nat
    then Some (mk [] (Some 0) [] None false false (sink0 ++ [zero]))
    else None.
Proof.
  revert N. induction depth as [|depth IH]; intros N HN.
  { destruct N; [lia|done]. }
  cbn [_set_value _running _gen _n set_n fmap option_fmap option_map].
  case_bool_decide as Hz.
  - assert (N = 1%nat) as -> by (simplify_eq; lia). done.
  - replace (Z.of_nat N - 1) with (Z.of_nat (N - 1)) by lia.
    unfold set_gen, set_n.
    cbn [_generator _n _gen _timer _running attached sink].
    rewrite IH; last first.
    { destruct N as [|[|N]]; [lia| |lia]. by destruct Hz. }
    destruct N as [|N]; [lia|].
    replace (S N - 1)%nat with N by lia.
    change (S N <=? S depth)%nat with (N <=? depth)%nat. done.
Qed.

Lemma set_value_empty_unbounded (sink0 : list V) (depth : nat) (n : option Z) :
  (forall N, n = Some N -> N <= 0) ->
  _set_value zero depth (mk [] n [] None true false sink0) = None.
Proof.
  revert n. induction depth as [|depth IH]; intros n Hn; [done|].
  cbn [_set_value _running _gen _n set_n].
  rewrite bool_decide_false; last first.
  { destruct n as [N|]; [|done]. simpl. intros [= E].
    specialize (Hn N eq_refl). lia. }
  unfold set_gen, set_n.
  cbn [_generator _n _gen _timer _running attached sink].
  apply IH. intros N HN. destruct n as [N'|]; [|done].
  simpl in HN. simplify_eq. specialize (Hn N' eq_refl). lia.
Qed.

(** X2.  A generator function that yields no step makes [_set_value] call
    itself once for each repeat: started with [n = N >= 1] the sequence
    completes inside the constructor when [N] call frames are there, having
    written the neutral value and nothing else, never arming the timer, and
    runs out of frames when fewer are; started with [n = None], or a count
    that is not positive, it runs out of frames however many there are. *)
Theorem empty_generator_takes_a_frame_per_repeat (sink0 : list V) (depth : nat) :
  (forall N : nat, (1 <= N)%nat ->
     _start_change zero depth sink0 [] (Some (Z.of_nat N))
     = if (N <=? depth)%nat
       then Some (mk [] (Some 0) [] None false true (sink0 ++ [zero]))
       else None)
  /\ (forall n : option Z, (forall N, n = Some N -> N <= 0) ->
        _start_change zero depth sink0 [] n = None).
Proof.
  split.
  - intros N HN. unfold _start_change, __init__.
    rewrite set_value_empty_counted by done.
    by destruct (N <=? depth)%nat.
  - intros n Hn. unfold _start_change, __init__.
    by rewrite set_value_empty_unbounded.
Qed.

(** The configuration of a sequencer that never completes, after [k]
    expiries. *)
Lemma play_unbounded_playing cycle sink0 n depth k :
  cycle ≠ [] -> (2 <= depth)%nat ->
  (forall N, n = Some N -> N <= 0) ->
  exists s q pre post,
    play zero depth sink0 cycle n k = Some s
    /\ playing cycle sink0 n q pre post s
    /\ (q * length cycle + length pre = S k)%nat.
Proof.
  intros Hne Hd Hn.
  destruct depth as [|[|depth]]; [lia|lia|].
  destruct cycle as [|st rest] eqn:Hc; [done|]. rewrite <- Hc in *.
  unfold play.
  destruct (ValueChangeFacts.start_playing zero sink0 n (S depth) st rest)
    as (s0 & E0 & Hpl0).
  rewrite <- Hc in *. rewrite E0. cbn [mbind option_bind].
  destruct (ValueChangeFacts.expiries_playing zero cycle sink0 n depth k 0
              [st] rest s0 Hpl0) as (s & q & pre & post & E & Hpl & Hcnt).
  { intros N HN. left. by apply Hn. }
  exists s, q, pre, post. split; [done|]. split; [done|].
  simpl length in Hcnt. lia.
Qed.

Lemma prefix_unique {A} (cycle pre pre' post post' : list A) (q q' : nat) :
  cycle = pre ++ post -> cycle = pre' ++ post' -> pre ≠ [] -> pre' ≠ [] ->
  (q * length cycle + length pre = q' * length cycle + length pre')%nat ->
  q = q' /\ pre = pre'.
Proof.
  intros H1 H2 Hp Hp' Hcnt.
  assert (L1 : length cycle = (length pre + length post)%nat)
    by (rewrite H1 at 1; apply length_app).
  assert (L2 : length cycle = (length pre' + length post')%nat)
    by (rewrite H2 at 1; apply length_app).
  assert (1 <= length pre)%nat by (destruct pre; [done|simpl; lia]).
  assert (1 <= length pre')%nat by (destruct pre'; [done|simpl; lia]).
  assert (q = q') as -> by nia.
  split; [done|].
  assert (Hl : length pre = length pre') by lia.
  rewrite H1 in H2. by apply app_inj_1 in H2 as [? _].
Qed.

(** X3.  A repeat count that is zero or negative is never decremented to
    0: on a generator function that yields at least one step, a sequencer
    started with [n = N <= 0] is, after any number of expiries, in the
    state of one started with [n = None] but for the count itself, which
    has gone down from [N]: running, its timer armed with the same period,
    the same values written, the same steps still to come. *)
Theorem nonpositive_repeat_count_is_forever (cycle : list (V * Q))
    (sink0 : list V) (N : Z) (depth k : nat) :
  cycle ≠ [] -> (2 <= depth)%nat -> N <= 0 ->
  exists s s',
    play zero depth sink0 cycle (Some N) k = Some s
    /\ play zero depth sink0 cycle None k = Some s'
    /\ _running s = true /\ _running s' = true
    /\ is_Some (_timer s) /\ _timer s = _timer s'
    /\ sink s = sink s' /\ _gen s = _gen s'
    /\ (exists q : nat, _n s = Some (N - Z.of_nat q)).
Proof.
  intros Hne Hd HN.
  destruct (play_unbounded_playing cycle sink0 (Some N) depth k Hne Hd)
    as (s & q & pre & post & E & Hpl & Hcnt).
  { by intros ? [= <-]. }
  destruct (play_unbounded_playing cycle sink0 None depth k Hne Hd)
    as (s' & q' & pre' & post' & E' & Hpl' & Hcnt'); [done|].
  exists s, s'. split; [done|]. split; [done|].
  destruct Hpl as [Hg Hn Hgen Hsplit Hpre Ht Hr Ha Hs].
  destruct Hpl' as [Hg' Hn' Hgen' Hsplit' Hpre' Ht' Hr' Ha' Hs'].
  destruct (prefix_unique cycle pre pre' post post' q q') as [-> ->];
    [done|done|done|done|lia|].
  assert (post = post') as ->.
  { rewrite Hsplit in Hsplit'. by apply app_inv_head in Hsplit'. }
  split; [done|]. split; [done|]. split.
  { rewrite Ht. destruct (last pre') eqn:El; [by eexists|].
    by apply last_None in El. }
  split; [by rewrite Ht, Ht'|]. split; [by rewrite Hs, Hs'|].
  split; [by rewrite Hgen, Hgen'|]. by exists q'.
Qed.

End Facts.

Lemma callback_writes_once_and_rearms_witness :
  _set_value 0%Q 2 (mk [(1, 1)]%Q (Some 2) [] None true true [])
  = Some (mk [(1, 1)]%Q (Some 1) [] (Some 1000) true true [1%Q])
  /\ _generator (mk [(1, 1)]%Q (Some 1) [] (Some 1000) true true [1%Q])
     = _generator (mk [(1, 1)]%Q (Some 2) [] None true true []).
Proof.
  assert (H : _set_value 0%Q 2 (mk [(1, 1)]%Q (Some 2) [] None true true [])
              = Some (mk [(1, 1)]%Q (Some 1) [] (Some 1000) true true [1%Q]))
    by reflexivity.
  split; [exact H|].
  exact (proj1 (callback_writes_once_and_rearms 0%Q 2 _ _ H)).
Defined.

Lemma empty_generator_takes_a_frame_per_repeat_witness :
  (1 <= 3)%nat
  /\ _start_change 0%Q 5 [1%Q] [] (Some 3)
     = Some (mk [] (Some 0) [] None false true [1; 0]%Q)
  /\ _start_change 0%Q 2 [1%Q] [] (Some 3) = None
  /\ _start_change 0%Q 5 [1%Q] [] None = None.
Proof.
  assert (H : (1 <= 3)%nat) by lia.
  split; [exact H|].
  split; [exact (proj1 (empty_generator_takes_a_frame_per_repeat
                          0%Q [1%Q] 5) 3%nat H)|].
  split; [exact (proj1 (empty_generator_takes_a_frame_per_repeat
                          0%Q [1%Q] 2) 3%nat H)|].
  apply (proj2 (empty_generator_takes_a_frame_per_repeat 0%Q [1%Q] 5) None).
  intros N HN. discriminate HN.
Defined.

Lemma nonpositive_repeat_count_is_forever_witness :
  [(1, 1)]%Q ≠ [] /\ (2 <= 2)%nat /\ -2 <= 0
  /\ exists s s',
       play 0%Q 2 [] [(1, 1)]%Q (Some (-2)) 3 = Some s
       /\ play 0%Q 2 [] [(1, 1)]%Q None 3 = Some s'
       /\ _running s = true /\ _running s' = true
       /\ is_Some (_timer s) /\ _timer s = _timer s'
       /\ sink s = sink s' /\ _gen s = _gen s'
       /\ (exists q : nat, _n s = Some (-2 - Z.of_nat q)).
Proof.
  assert (H1 : [(1, 1)]%Q ≠ []) by discriminate.
  assert (H2 : (2 <= 2)%nat) by lia.
  assert (H3 : -2 <= 0) by lia.
  split; [exact H1|]. split; [exact H2|]. split; [exact H3|].
  exact (nonpositive_repeat_count_is_forever 0%Q [(1, 1)]%Q [] (-2) 2 3
           H1 H2 H3).
Defined.

End ValueChangeMore.

(** ** Binary blink, continued *)

Module OutputDeviceMore.
Import ValueChange.


(** A sequencer that the device does not record stays unrecorded through
    its callbacks. *)
Lemma set_value_keeps_unattached (depth : nat) (s s' : ValueChange.t (V:=Q)) :
  attached s = false -> _set_value 0%Q depth s = Some s' ->
  attached s' = false.
Proof.
  revert s. induction depth as [|depth IH]; intros s Ha E; [done|].
  cbn [_set_value] in E. destruct (_running s); [|by injection E as <-].
  destruct (_gen s) as [|[value seconds] rest]; [|by injection E as <-].
  case_bool_decide.
  - injection E as <-. cbn. unfold _stop_change. cbn. by rewrite Ha.
  - by apply IH in E.
Qed.

Lemma expiries_keep_unattached (depth k : nat) (s s' : ValueChange.t (V:=Q)) :
  attached s = false -> expiries 0%Q depth k s = Some s' ->
  attached s' = false.
Proof.
  revert s. induction k as [|k IH]; intros s Ha E; [by injection E as <-|].
  cbn [expiries] in E. destruct (expire 0%Q depth s) as [s1|] eqn:E1; [|done].
  apply (IH s1); [|exact E]. unfold expire in E1.
  destruct (_timer s); [|by injection E1 as <-].
  by apply set_value_keeps_unattached in E1.
Qed.

(** X5.  [blink] stops the sequencer that the device records in
    [_value_changer], and no other.  On a device whose last sequencer is
    [old], it writes the 0 of [off] and then the first step of the new
    sequence after what [old] had written, and arms the timer of the new
    sequencer with [int(on_time * 1000)] ms.  When the device records
    [old], as it does once [_start_change] has returned, [old] is left not
    running, its timer cancelled and no longer recorded, so that no later
    expiry makes it write.  When it does not, [old] is left as it is but
    for the 0 written: running if it was, its timer armed if it was.  That
    is the case of a sequencer whose constructor has not returned: as long
    as the constructor waits, with [wait=True], through any number of
    expiries, the device does not record it. *)
Theorem new_pattern_stops_the_old_one (depth : nat)
    (old : ValueChange.t (V:=Q)) (on_time : Q) (off_time : option Q)
    (n : option Z) :
  (exists s,
     OutputDevice.blink (S depth) (OutputDevice.Driven old) on_time off_time n
     = Some s
     /\ sink s = sink old ++ [0; 1]%Q
     /\ _running s = true /\ attached s = true
     /\ _timer s = Some (py_int (float_mul on_time 1000)))
  /\ (attached old = true ->
        _running (value_set 0%Q old) = false
        /\ _timer (value_set 0%Q old) = None
        /\ attached (value_set 0%Q old) = false
        /\ (forall depth' k,
              expiries 0%Q depth' k (value_set 0%Q old)
              = Some (value_set 0%Q old)))
  /\ (attached old = false ->
        value_set 0%Q old = _write 0%Q old
        /\ _running (value_set 0%Q old) = _running old
        /\ _timer (value_set 0%Q old) = _timer old)
  /\ (forall depth' sink0 generator n' k waiting,
        __init__ 0%Q depth' sink0 generator n' ≫= expiries 0%Q depth' k
        = Some waiting ->
        attached waiting = false).
Proof.
  split; [|split; [|split]].
  - eexists. split; [reflexivity|]. cbn. unfold _stop_change.
    destruct (attached old); cbn; by rewrite <- app_assoc.
  - intros Ha. unfold value_set, _stop_change. rewrite Ha. cbn.
    split; [done|]. split; [done|]. split; [done|].
    intros depth' k. induction k as [|k IH]; [done|].
    cbn [expiries]. unfold expire at 1. cbn. exact IH.
  - intros Ha. unfold value_set, _stop_change. by rewrite Ha.
  - intros depth' sink0 generator n' k waiting E.
    unfold __init__ in E.
    destruct (_set_value 0%Q depth' _) as [s0|] eqn:E0; [|done].
    apply set_value_keeps_unattached in E0; [|done].
    by apply (expiries_keep_unattached depth' k s0).
Qed.

Lemma new_pattern_stops_the_old_one_witness :
  attached (mk [(1, 1)]%Q None [] (Some 1000) true true [0; 1]%Q) = true
  /\ attached (mk [(1, 1)]%Q None [] (Some 1000) true false [0; 1]%Q) = false
  /\ _running (value_set 0%Q
                 (mk [(1, 1)]%Q None [] (Some 1000) true true [0; 1]%Q))
     = false
  /\ _timer (value_set 0%Q
               (mk [(1, 1)]%Q None [] (Some 1000) true true [0; 1]%Q))
     = None
  /\ _running (value_set 0%Q
                 (mk [(1, 1)]%Q None [] (Some 1000) true false [0; 1]%Q))
     = true
  /\ _timer (value_set 0%Q
               (mk [(1, 1)]%Q None [] (Some 1000) true false [0; 1]%Q))
     = Some 1000
  /\ __init__ 0%Q 2 [0%Q] [(1, 1)]%Q None ≫= expiries 0%Q 2 1
     = Some (mk [(1, 1)]%Q None [] (Some 1000) true false [0; 1; 1]%Q)
  /\ attached (mk [(1, 1)]%Q None [] (Some 1000) true false [0; 1; 1]%Q)
     = false.
Proof.
  assert (H : attached (mk [(1, 1)]%Q None [] (Some 1000) true true [0; 1]%Q)
              = true) by reflexivity.
  assert (H' : attached (mk [(1, 1)]%Q None [] (Some 1000) true false
                            [0; 1]%Q) = false) by reflexivity.
  destruct (new_pattern_stops_the_old_one 0
              (mk [(1, 1)]%Q None [] (Some 1000) true true [0; 1]%Q)
              1 None None) as (_ & Hatt & _ & _).
  destruct (new_pattern_stops_the_old_one 0
              (mk [(1, 1)]%Q None [] (Some 1000) true false [0; 1]%Q)
              1 None None) as (_ & _ & Hun & Hwait).
  destruct (Hatt H) as (Hr & Ht & _).
  destruct (Hun H') as (_ & Hr' & Ht').
  split; [exact H|]. split; [exact H'|].
  split; [exact Hr|]. split; [exact Ht|].
  assert (Hw : __init__ 0%Q 2 [0%Q] [(1, 1)]%Q None ≫= expiries 0%Q 2 1
               = Some (mk [(1, 1)]%Q None [] (Some 1000) true false
                          [0; 1; 1]%Q)) by reflexivity.
  split; [exact Hr'|]. split; [exact Ht'|]. split; [exact Hw|].
  exact (Hwait 2%nat [0%Q] [(1, 1)]%Q None 1%nat _ Hw).
Defined.

End OutputDeviceMore.

(** ** Fade blink, continued *)

Module PWMLEDMore.
Import PWMLED.

(** X6.  Whatever the times and the frame rate, every step that the
    generator of [PWMLED.blink] yields has a value between 0 and 1 and lasts
    a strictly positive time. *)
Theorem blink_steps_within_range (on_time off_time fade_in_time
    fade_out_time fps v d : Q) :
  (v, d) ∈ blink_generator on_time off_time fade_in_time fade_out_time fps ->
  (0 <= v)%Q /\ (v <= 1)%Q /\ (0 < d)%Q.
Proof.
  unfold blink_generator. rewrite !elem_of_app.
  assert (Hinv : forall fps', (0 < fps')%Q -> (0 < 1 / fps')%Q).
  { intros fps' H. apply Qlt_shift_div_l; [done|]. by rewrite Qmult_0_l. }
  intros [H|[H|[H|H]]].
  - destruct (Qpos_b fade_in_time) eqn:E; [|by apply elem_of_nil in H].
    apply Qpos_b_lt in E. unfold fade_in_steps in H.
    apply list_elem_of_fmap in H as (i & [= -> ->] & Hi).
    destruct (fade_fraction fps fade_in_time i Hi E) as (Hfps & H0 & H1).
    split; [done|]. split; [by apply Qlt_le_weak|by apply Hinv].
  - destruct (Qpos_b on_time) eqn:E; [|by apply elem_of_nil in H].
    apply list_elem_of_singleton in H as [= -> ->].
    split; [done|]. split; [done|by apply Qpos_b_lt].
  - destruct (Qpos_b fade_out_time) eqn:E; [|by apply elem_of_nil in H].
    apply Qpos_b_lt in E. unfold fade_out_steps in H.
    apply list_elem_of_fmap in H as (i & [= -> ->] & Hi).
    destruct (fade_fraction fps fade_out_time i Hi E) as (Hfps & H0 & H1).
    split; [lra|]. split; [lra|by apply Hinv].
  - destruct (Qpos_b off_time) eqn:E; [|by apply elem_of_nil in H].
    apply list_elem_of_singleton in H as [= -> ->].
    split; [done|]. split; [done|by apply Qpos_b_lt].
Qed.


Lemma blink_steps_within_range_witness :
  (5 # 25, 1 # 25)%Q ∈ blink_generator 1 1 (1 # 5) (1 # 5) 25
  /\ (0 <= 5 # 25)%Q /\ (5 # 25 <= 1)%Q /\ (0 < 1 # 25)%Q.
Proof.
  assert (H : (5 # 25, 1 # 25)%Q ∈ blink_generator 1 1 (1 # 5) (1 # 5) 25).
  { apply (list_elem_of_lookup_2 _ 1%nat). reflexivity. }
  split; [exact H|].
  exact (blink_steps_within_range 1 1 (1 # 5) (1 # 5) 25 (5 # 25) (1 # 25) H).
Defined.


End PWMLEDMore.

(** ** Digital output devices *)

Module DigitalOutputDeviceFacts.
Import DigitalOutputDevice.

Lemma b2z_eq_0 (b : bool) : (Z.b2z b =? 0) = negb b.
Proof. by destruct b. Qed.

Lemma init_wf (active_high : bool) (initial_value : Q) :
  wf (__init__ active_high initial_value).
Proof.
  unfold __init__, wf, _write, _value_to_state. cbn.
  split; [by destruct active_high|].
  destruct (truthy initial_value), active_high; auto.
Qed.

(** X8.  On a digital output device, whatever its polarity, the value read
    after [value = v] is 1 when [v] is true and 0 when it is not, whatever
    was written before; the pin is then at level 1 exactly when the truth of
    [v] agrees with [active_high]; the device is active after [on] and
    inactive after [off]. *)
Theorem digital_read_after_write (d : t) (v : Q) :
  wf d ->
  wf (value_set v d)
  /\ _read (value_set v d) = Z.b2z (truthy v)
  /\ _pin (value_set v d) = Z.b2z (eqb (truthy v) (_active_state d))
  /\ is_active (on d) = true
  /\ is_active (off d) = false.
Proof.
  intros [Hinv Hpin].
  unfold on, off, is_active, _read, value_set, _write, _state_to_value,
    _value_to_state, wf.
  cbn [_pin _active_state _inactive_state]. rewrite Hinv.
  split; [|split; [|split; [|split]]].
  - split; [done|]. destruct (truthy v), (_active_state d); auto.
  - rewrite b2z_eq_0. by destruct (truthy v), (_active_state d).
  - by destruct (truthy v), (_active_state d).
  - by destruct (_active_state d).
  - by destruct (_active_state d).
Qed.

(** X9.  [toggle] on a digital output device inverts [is_active], and
    toggling twice gives back the device as it was, pin level included. *)
Theorem digital_toggle (d : t) :
  wf d ->
  wf (toggle d)
  /\ is_active (toggle d) = negb (is_active d)
  /\ toggle (toggle d) = d.
Proof.
  intros [Hinv Hpin]. destruct d as [pin a i]. cbn in Hinv, Hpin. subst i.
  unfold toggle, on, off, value_set, is_active, _read, _write,
    _state_to_value, _value_to_state, wf.
  cbn [_pin _active_state _inactive_state].
  destruct Hpin as [-> | ->], a; cbn; auto.
Qed.

Lemma digital_read_after_write_witness :
  wf (__init__ false 0)
  /\ _read (value_set 1 (__init__ false 0)) = Z.b2z (truthy 1)
  /\ _pin (value_set 1 (__init__ false 0)) = 0.
Proof.
  assert (H : wf (__init__ false 0)) by apply init_wf.
  destruct (digital_read_after_write (__init__ false 0) 1 H)
    as (_ & Hread & Hpin & _).
  split; [exact H|]. split; [exact Hread|exact Hpin].
Defined.

Lemma digital_toggle_witness :
  wf (__init__ true 0)
  /\ is_active (toggle (__init__ true 0)) = true
  /\ toggle (toggle (__init__ true 0)) = __init__ true 0.
Proof.
  assert (H : wf (__init__ true 0)) by apply init_wf.
  destruct (digital_toggle (__init__ true 0) H) as (_ & Hact & Hinv).
  split; [exact H|]. split; [exact Hact|exact Hinv].
Defined.

End DigitalOutputDeviceFacts.

(** ** The value of a PWM device *)

Module PWMValueFacts.
Import PWMOutputDevice.


(** X11.  On an active-low PWM device with a duty factor of 2 or more,
    [is_active] is true after [off] as it is after [on]: [_state_to_value]
    subtracts the duty read from 1, not from the duty factor, so the value
    read after [off] is negative, not 0. *)
Theorem pwm_active_low_reads_active (d : t) :
  _active_state d = false -> (2 <= _duty_factor d)%Q ->
  is_active (off d) = Some true
  /\ is_active (on d) = Some true
  /\ (exists r, _read (off d) = Some r /\ (r < 0)%Q).
Proof.
  intros Ha Hdf.
  unfold is_active, _read, on, off, _write, _state_to_value, _value_to_state.
  cbn [_duty_factor _active_state duty_u16]. rewrite Ha.
  destruct (Qeq_bool (_duty_factor d) 0) eqn:E.
  { apply Qeq_bool_iff in E. lra. }
  set (df := _duty_factor d) in *.
  assert (H1 : (df * (1 - 0) == df)%Q) by ring.
  assert (H0 : (df * (1 - 1) == 0)%Q) by ring.
  rewrite (py_int_comp _ _ H1), (py_int_comp _ _ H0).
  change (py_int 0) with 0.
  rewrite (py_int_nonneg df) by lra.
  assert (Hf : 2 <= Qfloor df) by (apply (Qfloor_resp_le 2); done).
  assert (Hq : (2 <= inject_Z (Qfloor df))%Q).
  { change 2%Q with (inject_Z 2). by rewrite <- Zle_Qle. }
  assert (Hneg : ((1 - inject_Z (Qfloor df)) / df < 0)%Q).
  { apply Qlt_shift_div_r; lra. }
  cbn [fmap option_fmap option_map].
  split; [|split].
  - f_equal. apply truthy_spec. lra.
  - f_equal. apply truthy_spec. intros Hz.
    assert (Hp : (0 < (1 - inject_Z 0) / df)%Q).
    { apply Qlt_shift_div_l; [lra|]. rewrite Qmult_0_l. reflexivity. }
    lra.
  - eexists. split; [reflexivity|done].
Qed.

(** X12.  On an active-high [PWMLED], setting the brightness to [b] stores
    [b], and the value read back is 1 exactly when [duty_factor * b >= 1],
    that is when the duty written is at least one step, and 0 otherwise:
    for a brightness that is 0, negative or below [1 / duty_factor]. *)
Theorem pwmled_reads_on_from_one_duty_step (d : PWMLED.t) (b : Q) :
  _active_state (PWMLED.super d) = true ->
  (0 < _duty_factor (PWMLED.super d))%Q ->
  PWMLED._brightness (PWMLED.brightness_set b d) = b
  /\ PWMLED._read (PWMLED.brightness_set b d)
     = Some (if Qle_bool 1 (_duty_factor (PWMLED.super d) * b) then 1 else 0).
Proof.
  intros Ha Hdf. split; [done|].
  unfold PWMLED._read, PWMLED.brightness_set, PWMLED._write, _read, _write,
    _state_to_value, _value_to_state.
  cbn [PWMLED.super PWMLED._brightness _duty_factor _active_state duty_u16].
  rewrite Ha.
  destruct (Qeq_bool (_duty_factor (PWMLED.super d)) 0) eqn:E.
  { apply Qeq_bool_iff in E. lra. }
  set (df := _duty_factor (PWMLED.super d)) in *.
  cbn [fmap option_fmap option_map]. f_equal.
  assert (Hpos_true : forall q, (0 < q)%Q -> Qpos_b q = true)
    by apply PWMLEDFacts.Qpos_b_true.
  assert (Hpos_false : forall q, (q <= 0)%Q -> Qpos_b q = false)
    by apply PWMLEDFacts.Qpos_b_false.
  destruct (Qlt_le_dec 0 b) as [Hb|Hb].
  - rewrite (Hpos_true b Hb).
    assert (H1 : (df * (b * 1) == df * b)%Q) by ring.
    rewrite (py_int_comp _ _ H1).
    assert (Hx : (0 <= df * b)%Q) by (apply Qmult_le_0_compat; lra).
    rewrite (py_int_nonneg _ Hx).
    destruct (Qle_bool 1 (df * b)) eqn:Hle.
    + apply Qle_bool_iff in Hle.
      assert (Hf : 1 <= Qfloor (df * b)) by (by apply (Qfloor_resp_le 1)).
      rewrite Hpos_true; [done|].
      apply Qlt_shift_div_l; [done|]. rewrite Qmult_0_l.
      change 0%Q with (inject_Z 0). rewrite <- Zlt_Qlt. lia.
    + assert (Hlt : (df * b < 1)%Q).
      { apply Qnot_le_lt. intros H. apply Qle_bool_iff in H. congruence. }
      assert (Hf : Qfloor (df * b) <= 0).
      { rewrite <- (py_int_nonneg _ Hx). by apply py_int_small. }
      rewrite Hpos_false; [done|].
      apply Qle_shift_div_r; [done|]. rewrite Qmult_0_l.
      change 0%Q with (inject_Z 0). rewrite <- Zle_Qle. lia.
  - rewrite (Hpos_false b Hb).
    assert (H1 : (df * (b * 0) == 0)%Q) by ring.
    rewrite (py_int_comp _ _ H1). change (py_int 0) with 0.
    rewrite Hpos_false; last first.
    { apply Qle_shift_div_r; [done|]. rewrite Qmult_0_l. apply Qle_refl. }
    assert (Hle : Qle_bool 1 (df * b) = false).
    { destruct (Qle_bool 1 (df * b)) eqn:Hle; [|done].
      apply Qle_bool_iff in Hle.
      assert ((df * b <= 0)%Q); [|lra].
      rewrite <- (Qmult_0_r df). apply Qmult_le_l; [done|done]. }
    by rewrite Hle.
Qed.


Lemma pwm_active_low_reads_active_witness :
  _active_state (mk 0 65025 false 0) = false
  /\ (2 <= _duty_factor (mk 0 65025 false 0))%Q
  /\ is_active (off (mk 0 65025 false 0)) = Some true.
Proof.
  assert (H1 : _active_state (mk 0 65025 false 0) = false) by reflexivity.
  assert (H2 : (2 <= _duty_factor (mk 0 65025 false 0))%Q) by discriminate.
  split; [exact H1|]. split; [exact H2|].
  exact (proj1 (pwm_active_low_reads_active (mk 0 65025 false 0) H1 H2)).
Defined.

Lemma pwmled_reads_on_from_one_duty_step_witness :
  _active_state (PWMLED.super (PWMLED.mk (mk 25 65025 true 0) 1)) = true
  /\ (0 < _duty_factor (PWMLED.super (PWMLED.mk (mk 25 65025 true 0) 1)))%Q
  /\ PWMLED._read
       (PWMLED.brightness_set (1 # 100000) (PWMLED.mk (mk 25 65025 true 0) 1))
     = Some 0.
Proof.
  assert (H1 : _active_state (PWMLED.super (PWMLED.mk (mk 25 65025 true 0) 1))
               = true) by reflexivity.
  assert (H2 : (0 < _duty_factor
                      (PWMLED.super (PWMLED.mk (mk 25 65025 true 0) 1)))%Q)
    by reflexivity.
  split; [exact H1|]. split; [exact H2|].
  exact (proj2 (pwmled_reads_on_from_one_duty_step
                  (PWMLED.mk (mk 25 65025 true 0) 1) (1 # 100000) H1 H2)).
Defined.

End PWMValueFacts.

(** ** RGB LEDs *)

Module RGBLEDFacts.
Import RGBLED.

Lemma to_from_255 (z : Z) : _to_255 (_from_255 (inject_Z z)) = z.
Proof.
  unfold _to_255, _from_255.
  destruct (Qeq_bool (inject_Z z) 0) eqn:E.
  - apply Qeq_bool_iff in E.
    rewrite (py_round_comp _ (inject_Z z)); [apply py_round_inject_Z|].
    rewrite E. ring.
  - rewrite (py_round_comp _ (inject_Z z)); [apply py_round_inject_Z|].
    field.
Qed.

Lemma value_set_brightness (leds : list PWMLED.t) (vs : list Q) :
  length leds = length vs ->
  PWMLED._brightness <$> set_brightness leds vs = vs.
Proof.
  revert vs. induction leds as [|led leds IH]; intros [|v vs] Hl; try done.
  simpl in Hl. simpl. f_equal. apply IH. lia.
Qed.

Lemma length_set_brightness (leds : list PWMLED.t) (vs : list Q) :
  length (set_brightness leds vs) = length leds.
Proof.
  revert vs. induction leds as [|led leds IH]; intros [|v vs]; try done.
  simpl. by rewrite IH.
Qed.

(** X13.  Setting [color] to a tuple of 0-255 integers, one for each LED,
    and reading [color] back gives the same integers: [_from_255] and
    [_to_255] undo each other on them. *)
Theorem color_round_trip (d : t) (c : list Z) :
  length (_leds d) = length c ->
  color (color_set (inject_Z <$> c) d) = c.
Proof.
  intros Hl. unfold color, color_set, value_set, value, _write.
  cbn [_leds]. rewrite value_set_brightness by (by rewrite !length_fmap).
  rewrite <- !list_fmap_compose.
  rewrite <- (list_fmap_id c) at 2. apply list_fmap_ext.
  intros i z _. apply to_from_255.
Qed.

Lemma tuple_eqb_refl_zero : tuple_eqb [0; 0; 0]%Q [0; 0; 0]%Q = true.
Proof. reflexivity. Qed.

(** X14.  [toggle] on an [RGBLED] that is lit switches the three LEDs off,
    and a second [toggle] gives back the brightnesses it had. *)
Theorem rgb_toggle_restores (d : t) :
  length (_leds d) = 3%nat -> is_active d = true ->
  value (toggle d) = [0; 0; 0]%Q
  /\ is_active (toggle d) = false
  /\ value (toggle (toggle d)) = value d.
Proof.
  intros Hl Hact. unfold is_active in Hact. apply negb_true_iff in Hact.
  assert (Hoff : value (toggle d) = [0; 0; 0]%Q).
  { unfold toggle. rewrite Hact. unfold value_set, value, _write.
    cbn [_leds]. by rewrite value_set_brightness. }
  split; [done|]. split; [by unfold is_active; rewrite Hoff|].
  unfold toggle at 1. rewrite Hoff, tuple_eqb_refl_zero.
  unfold toggle. rewrite Hact. cbn [_last value_set _write _leds].
  assert (Hv : length (value d) = 3%nat) by (unfold value; by rewrite length_fmap).
  unfold value_truthy. rewrite bool_decide_false; last first.
  { intros E. by rewrite E in Hv. }
  cbn [negb]. unfold value at 1. cbn [_leds].
  apply value_set_brightness.
  unfold value_set, _write. cbn [_leds].
  by rewrite length_set_brightness, Hl, Hv.
Qed.

Lemma init_pwmled_inv pin ah iv (used used' : gmap string Z) led :
  PWMLED.__init__ pin ah iv used = (inr led, used') ->
  exists ch, py_getitem PWMOutputDevice.PIN_TO_PWM_CHANNEL pin = Some ch
    /\ used !! ch = None /\ used' = <[ch := pin]> used.
Proof.
  unfold PWMLED.__init__, PWMOutputDevice._check_pwm_channel.
  destruct (py_getitem _ pin) as [ch|]; [|done].
  destruct (used !! ch) eqn:E; [done|].
  intros [= <- <-]. by exists ch.
Qed.

Lemma make_leds_inv pins ah : forall (used used' : gmap string Z) leds,
  make_leds pins ah used = (inr leds, used') ->
  length leds = length pins
  /\ used ⊆ used'
  /\ (forall pin, pin ∈ pins ->
        exists ch owner,
          py_getitem PWMOutputDevice.PIN_TO_PWM_CHANNEL pin = Some ch
          /\ used' !! ch = Some owner).
Proof.
  induction pins as [|pin pins IH]; intros used used' leds.
  { intros [= <- <-]. split; [done|]. split; [done|].
    intros pin Hin. by apply elem_of_nil in Hin. }
  cbn [make_leds].
  destruct (PWMLED.__init__ pin ah 0 used) as [[e|led] used1] eqn:E1; [done|].
  destruct (make_leds pins ah used1) as [[e|leds'] used2] eqn:E2; [done|].
  intros [= <- <-].
  apply init_pwmled_inv in E1 as (ch & Hch & Hfree & ->).
  destruct (IH _ _ _ E2) as (Hlen & Hsub & Hpins).
  split; [simpl; by rewrite Hlen|]. split.
  - etrans; [|exact Hsub]. by apply insert_subseteq.
  - intros p Hp. apply elem_of_cons in Hp as [-> | Hp]; [|by apply Hpins].
    exists ch, pin. split; [done|].
    eapply lookup_weaken; [|exact Hsub]. apply lookup_insert_eq.
Qed.

(** X16.  An [RGBLED] that has been constructed holds the PWM channels of
    its three pins, beside the entries that were there: constructing a PWM
    device on any of the three pins raises [PWMChannelAlreadyInUse].
    [close], which [RGBLED] takes from [OutputDevice], sets the three
    brightnesses to 0 and has no access to [_channels_used]: the channels
    stay taken after it. *)
Theorem rgbled_holds_its_channels (red green blue : Z) (active_high : bool)
    (initial_value : Value) (used used' : gmap string Z) (d : t) :
  __init__ red green blue active_high initial_value used = (inr d, used') ->
  length (_leds d) = 3%nat
  /\ value (close d) = [0; 0; 0]%Q
  /\ used ⊆ used'
  /\ (forall pin, pin ∈ [red; green; blue] ->
        exists msg, forall duty_factor active_high' initial_value',
          PWMOutputDevice.__init__ pin duty_factor active_high' initial_value'
            used'
          = (inl (PWMChannelAlreadyInUse msg), used')).
Proof.
  unfold __init__.
  destruct (make_leds [red; green; blue] active_high used)
    as [[e|leds] used1] eqn:E; [done|].
  intros [= <- <-].
  destruct (make_leds_inv _ _ _ _ _ E) as (Hlen & Hsub & Hpins).
  assert (Hl : length (_leds (_write initial_value (mk leds initial_value)))
               = 3%nat).
  { unfold _write. cbn [_leds]. by rewrite length_set_brightness. }
  split; [done|]. split.
  { unfold close, value_set, value, _write. cbn [_leds].
    by rewrite value_set_brightness by (by rewrite length_set_brightness). }
  split; [done|].
  intros pin Hpin. destruct (Hpins pin Hpin) as (ch & owner & Hch & Hused).
  eexists. intros duty_factor active_high' initial_value'.
  unfold PWMOutputDevice.__init__, PWMOutputDevice._check_pwm_channel.
  by rewrite Hch, Hused.
Qed.

(** X17.  When the blue pin of an [RGBLED] is on the PWM channel of its
    red pin, and the channels of red and green are distinct and free, the
    construction raises [PWMChannelAlreadyInUse] naming the red pin, and
    leaves the entries of red and green in [_channels_used]: the two LEDs
    already constructed are not released. *)
Theorem rgbled_conflict_leaves_entries (red green blue : Z)
    (cr cg : string) (active_high : bool) (initial_value : Value)
    (used : gmap string Z) :
  py_getitem PWMOutputDevice.PIN_TO_PWM_CHANNEL red = Some cr ->
  py_getitem PWMOutputDevice.PIN_TO_PWM_CHANNEL green = Some cg ->
  py_getitem PWMOutputDevice.PIN_TO_PWM_CHANNEL blue = Some cr ->
  cr ≠ cg -> used !! cr = None -> used !! cg = None ->
  __init__ red green blue active_high initial_value used
  = (inl (PWMChannelAlreadyInUse
            ("PWM channel " +:+ cr +:+ " is already in use by pin "
             +:+ pretty red)),
     <[cg := green]> (<[cr := red]> used)).
Proof.
  intros Hr Hg Hb Hne Hfr Hfg.
  unfold __init__. cbn [make_leds].
  unfold PWMLED.__init__ at 1.
  rewrite (PWMOutputDeviceFacts.check_free _ _ _ Hr Hfr).
  unfold PWMLED.__init__ at 1.
  rewrite (PWMOutputDeviceFacts.check_free _ cg); [|done|]; last first.
  { by rewrite lookup_insert_ne. }
  unfold PWMLED.__init__ at 1.
  rewrite (PWMOutputDeviceFacts.check_occupied _ cr red); [done|done|].
  rewrite lookup_insert_ne by done. apply lookup_insert_eq.
Qed.

(** X15.  An [RGBLED] constructed with the default initial value is off and
    [toggle] leaves it off: [_last] is [(0, 0, 0)], a tuple that is true, so
    it is what [toggle] writes.  Once [on] has been called, [toggle]
    switches it off and a second [toggle] back to [(1, 1, 1)]. *)
Theorem fresh_rgbled_does_not_toggle_on (red green blue : Z)
    (active_high : bool) (used used' : gmap string Z) (d : t) :
  __init__ red green blue active_high (Tuple [0; 0; 0]%Q) used = (inr d, used') ->
  value d = [0; 0; 0]%Q
  /\ value (toggle d) = [0; 0; 0]%Q
  /\ is_active (toggle d) = false
  /\ value (toggle (on d)) = [0; 0; 0]%Q
  /\ value (toggle (toggle (on d))) = [1; 1; 1]%Q.
Proof.
  unfold __init__.
  destruct (make_leds [red; green; blue] active_high used)
    as [[e|leds] used1] eqn:E; [done|].
  intros [= <- <-].
  destruct (make_leds_inv _ _ _ _ _ E) as (Hlen & _ & _).
  destruct leds as [|l1 [|l2 [|l3 [|l4 leds]]]]; try done.
Qed.



Lemma from_255_unit (v : Q) : (0 <= v <= 255)%Q -> (0 <= _from_255 v <= 1)%Q.
Proof.
  intros [H0 H1]. unfold _from_255. destruct (Qeq_bool v 0); [lra|].
  split.
  - apply Qle_shift_div_l; [reflexivity|]. lra.
  - apply Qle_shift_div_r; [reflexivity|]. lra.
Qed.

Lemma normalise_unit (colors : list (list Q)) :
  within 0 255 colors -> within 0 1 (normalise colors).
Proof.
  intros H t v Ht Hv. unfold normalise in Ht.
  destruct (existsb _ (concat colors)) eqn:E.
  - apply list_elem_of_fmap in Ht as (t0 & -> & Ht0).
    apply list_elem_of_fmap in Hv as (v0 & -> & Hv0).
    apply from_255_unit. by apply (H t0).
  - split; [by apply (H t)|].
    destruct (Qle_bool v 1) eqn:Hle; [by apply Qle_bool_iff|].
    assert (Hex : existsb (fun v => negb (Qle_bool v 1)) (concat colors) = true).
    { apply existsb_exists. exists v. split; [|by rewrite Hle].
      apply in_concat. exists t. by rewrite <- !list_elem_of_In. }
    congruence.
Qed.

Lemma lookup_total_unit (colors : list (list Q)) (i : nat) (v : Q) :
  within 0 1 colors -> v ∈ colors !!! i -> (0 <= v <= 1)%Q.
Proof.
  intros H Hv. rewrite list_lookup_total_alt in Hv.
  destruct (colors !! i) as [t|] eqn:E; simpl in Hv.
  - apply (H t); [|done]. by eapply list_elem_of_lookup_2.
  - by apply elem_of_nil in Hv.
Qed.

Lemma lerp_unit (t : Q) (color1 color2 : list Q) (v : Q) :
  (0 <= t <= 1)%Q ->
  (forall x, x ∈ color1 -> (0 <= x <= 1)%Q) ->
  (forall x, x ∈ color2 -> (0 <= x <= 1)%Q) ->
  v ∈ lerp t true color1 color2 -> (0 <= v <= 1)%Q.
Proof.
  intros Ht H1 H2 Hv. unfold lerp in Hv.
  apply list_elem_of_fmap in Hv as ([off on] & -> & Hin).
  pose proof (H2 off (elem_of_zip_l _ _ _ _ Hin)) as Hoff.
  pose proof (H1 on (elem_of_zip_r _ _ _ _ Hin)) as Hon.
  split; nra.
Qed.

Lemma color_steps_unit (fps : Q) (colors : list (list Q))
    (on_times fade_times : list Q) (c : nat) (value : Value) (dur : Q) :
  within 0 1 colors ->
  (value, dur) ∈ (color_steps fps colors on_times fade_times c).1 ->
  exists l, value = Tuple l /\ (forall v, v ∈ l -> (0 <= v <= 1)%Q)
            /\ (0 < dur)%Q.
Proof.
  intros Hc. unfold color_steps.
  destruct (fade_times !! c) as [fade|]; [|by intros H%elem_of_nil].
  assert (Hfades : forall x,
    x ∈ (if Qpos_b fade
         then (fun i : Z =>
                 (Tuple (lerp (inject_Z i * (1 / fps) / fade) true
                           (colors !!! ((c + 1) mod length colors)%nat)
                           (colors !!! c)), (1 / fps)%Q))
                <$> py_range (py_int (fps * fade))
         else []) ->
    exists l, x.1 = Tuple l /\ (forall v, v ∈ l -> (0 <= v <= 1)%Q)
              /\ (0 < x.2)%Q).
  { intros x Hx. destruct (Qpos_b fade) eqn:E; [|by apply elem_of_nil in Hx].
    assert (Hfade : (0 < fade)%Q).
    { unfold Qpos_b in E. apply Qnot_le_lt. intros Hle.
      apply Qle_bool_iff in Hle. by rewrite Hle in E. }
    apply list_elem_of_fmap in Hx as (i & -> & Hi).
    destruct (fade_fraction fps fade i Hi Hfade) as (Hfps & H0 & H1).
    eexists. split; [reflexivity|]. split.
    - intros v Hv. eapply lerp_unit; [| | |exact Hv].
      + split; [done|by apply Qlt_le_weak].
      + intros x Hx. by eapply lookup_total_unit.
      + intros x Hx. by eapply lookup_total_unit.
    - cbn. apply Qlt_shift_div_l; [done|]. by rewrite Qmult_0_l. }
  destruct (on_times !! c) as [on_time|]; cbn [fst].
  - rewrite elem_of_app. intros [H|H]; [by apply (Hfades (value, dur))|].
    destruct (Qpos_b on_time) eqn:E; [|by apply elem_of_nil in H].
    apply list_elem_of_singleton in H as [= -> ->].
    eexists. split; [reflexivity|]. split.
    + intros v Hv. by eapply lookup_total_unit.
    + unfold Qpos_b in E. apply Qnot_le_lt. intros Hle.
      apply Qle_bool_iff in Hle. by rewrite Hle in E.
  - intros H. by apply (Hfades (value, dur)).
Qed.

Lemma blink_turns_unit (fps : Q) (colors : list (list Q))
    (on_times fade_times : list Q) (cs : list nat) (value : Value) (dur : Q) :
  within 0 1 colors ->
  (value, dur) ∈ (blink_turns fps colors on_times fade_times cs).1 ->
  exists l, value = Tuple l /\ (forall v, v ∈ l -> (0 <= v <= 1)%Q)
            /\ (0 < dur)%Q.
Proof.
  intros Hc. induction cs as [|c cs IH]; [by intros H%elem_of_nil|].
  cbn [blink_turns].
  pose proof (color_steps_unit fps colors on_times fade_times c value dur Hc)
    as Hstep.
  destruct (color_steps fps colors on_times fade_times c) as [steps [e|]];
    cbn [fst] in *; [done|].
  destruct (blink_turns fps colors on_times fade_times cs) as [rest e'].
  cbn [fst] in *. rewrite elem_of_app. intros [H|H]; auto.
Qed.

(** X18.  When every component of the palette is between 0 and 255, every
    step that the generator of [RGBLED.blink] yields, whatever the times and
    the frame rate, is a tuple whose components are between 0 and 1, and
    lasts a strictly positive time. *)
Theorem rgb_blink_within_range (on_times fade_times : Times)
    (colors : list (list Q)) (fps : Q) (value : Value) (dur : Q) :
  within 0 255 colors ->
  (value, dur) ∈ (blink_generator on_times fade_times colors fps).1 ->
  exists l, value = Tuple l /\ (forall v, v ∈ l -> (0 <= v <= 1)%Q)
            /\ (0 < dur)%Q.
Proof.
  intros Hc. unfold blink_generator. apply blink_turns_unit.
  by apply normalise_unit.
Qed.


Lemma lerp_same (t : Q) (fade_in : bool) (c1 c1' c2 c2' : list Q) :
  Forall2 Qeq c1 c1' -> Forall2 Qeq c2 c2' ->
  Forall2 Qeq (lerp t fade_in c1 c2) (lerp t fade_in c1' c2').
Proof.
  intros H1 H2. revert c1 c1' H1.
  induction H2 as [|x y c2 c2' Hxy H2 IH]; intros c1 c1' H1.
  { constructor. }
  destruct H1 as [|a b c1 c1' Hab H1]; [constructor|].
  unfold lerp. cbn. constructor; [|by apply IH].
  destruct fade_in; by rewrite Hxy, Hab.
Qed.

Lemma lookup_total_same (colors colors' : list (list Q)) (i : nat) :
  Forall2 (Forall2 Qeq) colors colors' ->
  Forall2 Qeq (colors !!! i) (colors' !!! i).
Proof.
  intros H. rewrite !list_lookup_total_alt.
  destruct (colors !! i) as [t|] eqn:E.
  - destruct (Forall2_lookup_l _ _ _ _ _ H E) as (t' & -> & Ht). done.
  - assert (E' : colors' !! i = None).
    { apply lookup_ge_None. apply lookup_ge_None in E.
      by rewrite <- (Forall2_length _ _ _ H). }
    rewrite E'. constructor.
Qed.

Lemma same_steps_app (a a' b b' : list (Value * Q)) :
  same_steps a a' -> same_steps b b' -> same_steps (a ++ b) (a' ++ b').
Proof. apply Forall2_app. Qed.

Lemma color_steps_same (fps : Q) (colors colors' : list (list Q))
    (on_times fade_times : list Q) (c : nat) :
  Forall2 (Forall2 Qeq) colors colors' ->
  same_steps (color_steps fps colors on_times fade_times c).1
             (color_steps fps colors' on_times fade_times c).1
  /\ (color_steps fps colors on_times fade_times c).2
     = (color_steps fps colors' on_times fade_times c).2.
Proof.
  intros H. unfold color_steps. rewrite <- (Forall2_length _ _ _ H).
  destruct (fade_times !! c) as [fade|]; [|by split; [constructor|]].
  set (fades := fun cols : list (list Q) =>
    if Qpos_b fade
    then (fun i : Z =>
            (Tuple (lerp (inject_Z i * (1 / fps) / fade) true
                      (cols !!! ((c + 1) mod length colors)%nat)
                      (cols !!! c)), (1 / fps)%Q))
           <$> py_range (py_int (fps * fade))
    else []).
  assert (Hf : same_steps (fades colors) (fades colors')).
  { unfold fades. destruct (Qpos_b fade); [|constructor].
    apply Forall2_fmap, Forall_Forall2_diag, Forall_forall. intros i _.
    split; [|done]. cbn. apply lerp_same; by apply lookup_total_same. }
  change (if Qpos_b fade then _ else _) with (fades colors) at 1 2.
  change (if Qpos_b fade then _ else _) with (fades colors') at 1 2.
  destruct (on_times !! c) as [on_time|]; cbn [fst snd]; [|done].
  split; [|done]. apply same_steps_app; [done|].
  destruct (Qpos_b on_time); [|constructor].
  constructor; [|constructor]. split; [|done]. cbn.
  by apply lookup_total_same.
Qed.

Lemma blink_turns_same (fps : Q) (colors colors' : list (list Q))
    (on_times fade_times : list Q) (cs : list nat) :
  Forall2 (Forall2 Qeq) colors colors' ->
  same_steps (blink_turns fps colors on_times fade_times cs).1
             (blink_turns fps colors' on_times fade_times cs).1
  /\ (blink_turns fps colors on_times fade_times cs).2
     = (blink_turns fps colors' on_times fade_times cs).2.
Proof.
  intros H. induction cs as [|c cs [IH1 IH2]]; [by split; [constructor|]|].
  cbn [blink_turns].
  destruct (color_steps_same fps colors colors' on_times fade_times c H)
    as [Hs He].
  destruct (color_steps fps colors on_times fade_times c) as [steps e].
  destruct (color_steps fps colors' on_times fade_times c) as [steps' e'].
  cbn [fst snd] in *. subst e'.
  destruct e as [e|]; [done|].
  destruct (blink_turns fps colors on_times fade_times cs) as [rest r].
  destruct (blink_turns fps colors' on_times fade_times cs) as [rest' r'].
  cbn [fst snd] in *. split; [by apply same_steps_app|done].
Qed.

Lemma from_255_scaled (v : Q) : (_from_255 (255 * v) == v)%Q.
Proof.
  unfold _from_255. destruct (Qeq_bool (255 * v) 0) eqn:E.
  - apply Qeq_bool_iff in E. lra.
  - field.
Qed.

(** X19.  A palette given on the 0-255 scale plays as the same palette
    given on the 0-1 scale: for a palette with components between 0 and 1,
    one of them above 1/255, the generator of [RGBLED.blink] yields for the
    palette multiplied by 255 the steps it yields for the palette itself,
    the same numbers for the same times, and ends the same way. *)
Theorem rgb_blink_scale_invariant (on_times fade_times : Times)
    (colors : list (list Q)) (fps : Q) :
  within 0 1 colors ->
  (exists t v, t ∈ colors /\ v ∈ t /\ (1 < 255 * v)%Q) ->
  same_steps
    (blink_generator on_times fade_times
       ((fun t : list Q => Qmult 255 <$> t) <$> colors) fps).1
    (blink_generator on_times fade_times colors fps).1
  /\ (blink_generator on_times fade_times
        ((fun t : list Q => Qmult 255 <$> t) <$> colors) fps).2
     = (blink_generator on_times fade_times colors fps).2.
Proof.
  intros Hunit (t & v & Ht & Hv & Hbig).
  set (scaled := (fun t : list Q => Qmult 255 <$> t) <$> colors).
  assert (Hplain : normalise colors = colors).
  { unfold normalise.
    destruct (existsb _ (concat colors)) eqn:E; [|done].
    apply existsb_exists in E as (x & Hx & Hgt).
    apply in_concat in Hx as (t0 & Ht0 & Hx).
    rewrite <- !list_elem_of_In in *.
    destruct (Hunit t0 x Ht0 Hx) as [_ Hle].
    apply Qle_bool_iff in Hle. by rewrite Hle in Hgt. }
  assert (Hscaled : normalise scaled
                    = (fun t : list Q => _from_255 <$> t) <$> scaled).
  { unfold normalise.
    destruct (existsb _ (concat scaled)) eqn:E; [done|].
    assert (Hex : existsb (fun v => negb (Qle_bool v 1)) (concat scaled) = true).
    { apply existsb_exists. exists (255 * v)%Q. split.
      - apply in_concat. exists (Qmult 255 <$> t).
        rewrite <- !list_elem_of_In. split.
        + apply list_elem_of_fmap. by exists t.
        + apply list_elem_of_fmap. by exists v.
      - apply negb_true_iff. destruct (Qle_bool (255 * v) 1) eqn:Hle; [|done].
        apply Qle_bool_iff in Hle. lra. }
    congruence. }
  assert (Hsame : Forall2 (Forall2 Qeq) (normalise scaled) colors).
  { rewrite Hscaled. unfold scaled. rewrite <- list_fmap_compose.
    apply Forall2_fmap_l, Forall_Forall2_diag, Forall_forall. intros t0 _.
    cbn. rewrite <- list_fmap_compose.
    apply Forall2_fmap_l, Forall_Forall2_diag, Forall_forall. intros x _.
    cbn. apply from_255_scaled. }
  unfold blink_generator. rewrite Hplain.
  assert (Hlen : length scaled = length colors)
    by (unfold scaled; by rewrite length_fmap).
  assert (Hexp : forall times, expand times scaled = expand times colors).
  { intros [q|l]; [|done]. cbn. by rewrite Hlen. }
  rewrite !Hexp, (Forall2_length _ _ _ Hsame).
  by apply blink_turns_same.
Qed.

Lemma color_round_trip_witness :
  length (_leds (mk (replicate 3 (PWMLED.mk (PWMOutputDevice.mk 1 65025 true 0) 0))
                    (Tuple [0; 0; 0]%Q)))
  = length [255; 128; 0]
  /\ color (color_set (inject_Z <$> [255; 128; 0])
             (mk (replicate 3 (PWMLED.mk (PWMOutputDevice.mk 1 65025 true 0) 0))
                 (Tuple [0; 0; 0]%Q)))
     = [255; 128; 0].
Proof.
  assert (H : length (_leds (mk (replicate 3
                (PWMLED.mk (PWMOutputDevice.mk 1 65025 true 0) 0))
                (Tuple [0; 0; 0]%Q))) = length [255; 128; 0]) by reflexivity.
  split; [exact H|]. exact (color_round_trip _ [255; 128; 0] H).
Defined.

Lemma rgb_toggle_restores_witness :
  length (_leds (mk (replicate 3 (PWMLED.mk (PWMOutputDevice.mk 1 65025 true 0) 1))
                    (Tuple [0; 0; 0]%Q))) = 3%nat
  /\ is_active (mk (replicate 3 (PWMLED.mk (PWMOutputDevice.mk 1 65025 true 0) 1))
                   (Tuple [0; 0; 0]%Q)) = true
  /\ value (toggle (mk (replicate 3
                          (PWMLED.mk (PWMOutputDevice.mk 1 65025 true 0) 1))
                       (Tuple [0; 0; 0]%Q))) = [0; 0; 0]%Q.
Proof.
  assert (H1 : length (_leds (mk (replicate 3
                 (PWMLED.mk (PWMOutputDevice.mk 1 65025 true 0) 1))
                 (Tuple [0; 0; 0]%Q))) = 3%nat) by reflexivity.
  assert (H2 : is_active (mk (replicate 3
                 (PWMLED.mk (PWMOutputDevice.mk 1 65025 true 0) 1))
                 (Tuple [0; 0; 0]%Q)) = true) by reflexivity.
  split; [exact H1|]. split; [exact H2|].
  exact (proj1 (rgb_toggle_restores _ H1 H2)).
Defined.

Lemma fresh_rgbled_does_not_toggle_on_witness :
  exists d used',
    __init__ 1 2 3 true (Tuple [0; 0; 0]%Q) ∅ = (inr d, used')
    /\ value (toggle d) = [0; 0; 0]%Q.
Proof.
  eexists _, _. split; [reflexivity|].
  exact (proj1 (proj2 (fresh_rgbled_does_not_toggle_on 1 2 3 true ∅ _ _
                         eq_refl))).
Defined.

Lemma rgbled_holds_its_channels_witness :
  exists d used',
    __init__ 1 2 3 true (Tuple [0; 0; 0]%Q) ∅ = (inr d, used')
    /\ length (_leds d) = 3%nat.
Proof.
  eexists _, _. split; [reflexivity|].
  exact (proj1 (rgbled_holds_its_channels 1 2 3 true (Tuple [0; 0; 0]%Q)
                  ∅ _ _ eq_refl)).
Defined.

Lemma rgbled_conflict_leaves_entries_witness :
  py_getitem PWMOutputDevice.PIN_TO_PWM_CHANNEL 1 = Some "0B"
  /\ py_getitem PWMOutputDevice.PIN_TO_PWM_CHANNEL 2 = Some "1A"
  /\ py_getitem PWMOutputDevice.PIN_TO_PWM_CHANNEL 17 = Some "0B"
  /\ "0B" ≠ "1A"
  /\ (∅ : gmap string Z) !! "0B" = None
  /\ (∅ : gmap string Z) !! "1A" = None
  /\ __init__ 1 2 17 true (Tuple [0; 0; 0]%Q) ∅
     = (inl (PWMChannelAlreadyInUse
               ("PWM channel " +:+ "0B" +:+ " is already in use by pin "
                +:+ pretty 1)),
        <["1A" := 2]> (<["0B" := 1]> ∅)).
Proof.
  assert (H1 : py_getitem PWMOutputDevice.PIN_TO_PWM_CHANNEL 1 = Some "0B")
    by reflexivity.
  assert (H2 : py_getitem PWMOutputDevice.PIN_TO_PWM_CHANNEL 2 = Some "1A")
    by reflexivity.
  assert (H3 : py_getitem PWMOutputDevice.PIN_TO_PWM_CHANNEL 17 = Some "0B")
    by reflexivity.
  assert (H4 : "0B" ≠ "1A") by discriminate.
  assert (H5 : (∅ : gmap string Z) !! "0B" = None) by reflexivity.
  assert (H6 : (∅ : gmap string Z) !! "1A" = None) by reflexivity.
  split; [exact H1|]. split; [exact H2|]. split; [exact H3|].
  split; [exact H4|]. split; [exact H5|]. split; [exact H6|].
  exact (rgbled_conflict_leaves_entries 1 2 17 "0B" "1A" true
           (Tuple [0; 0; 0]%Q) ∅ H1 H2 H3 H4 H5 H6).
Defined.

Lemma rgb_blink_within_range_witness :
  within 0 255 [[255; 0; 0]; [0; 255; 0]]%Q
  /\ (Tuple [255 # 255; 0; 0]%Q, 1%Q)
     ∈ (blink_generator (Same 1) (Same 0) [[255; 0; 0]; [0; 255; 0]]%Q 25).1
  /\ exists l, Tuple [255 # 255; 0; 0]%Q = Tuple l
       /\ (forall v, v ∈ l -> (0 <= v <= 1)%Q) /\ (0 < 1)%Q.
Proof.
  assert (H1 : within 0 255 [[255; 0; 0]; [0; 255; 0]]%Q).
  { intros t v Ht Hv.
    repeat (apply elem_of_cons in Ht as [-> | Ht]);
      [| |by apply elem_of_nil in Ht];
      repeat (apply elem_of_cons in Hv as [-> | Hv]);
      try (by apply elem_of_nil in Hv); split; discriminate. }
  assert (H2 : (Tuple [255 # 255; 0; 0]%Q, 1%Q)
     ∈ (blink_generator (Same 1) (Same 0) [[255; 0; 0]; [0; 255; 0]]%Q 25).1).
  { apply (list_elem_of_lookup_2 _ 0%nat). reflexivity. }
  split; [exact H1|]. split; [exact H2|].
  exact (rgb_blink_within_range (Same 1) (Same 0) _ 25 _ _ H1 H2).
Defined.

Lemma rgb_blink_scale_invariant_witness :
  within 0 1 [[1; 0; 0]; [0; 1; 0]]%Q
  /\ (exists t v, t ∈ [[1; 0; 0]; [0; 1; 0]]%Q /\ v ∈ t /\ (1 < 255 * v)%Q)
  /\ same_steps
       (blink_generator (Same 1) (Same (1 # 10))
          ((fun t : list Q => Qmult 255 <$> t) <$> [[1; 0; 0]; [0; 1; 0]]%Q)
          25).1
       (blink_generator (Same 1) (Same (1 # 10)) [[1; 0; 0]; [0; 1; 0]]%Q 25).1.
Proof.
  assert (H1 : within 0 1 [[1; 0; 0]; [0; 1; 0]]%Q).
  { intros t v Ht Hv.
    repeat (apply elem_of_cons in Ht as [-> | Ht]);
      [| |by apply elem_of_nil in Ht];
      repeat (apply elem_of_cons in Hv as [-> | Hv]);
      try (by apply elem_of_nil in Hv); split; discriminate. }
  assert (H2 : exists t v, t ∈ [[1; 0; 0]; [0; 1; 0]]%Q /\ v ∈ t
                           /\ (1 < 255 * v)%Q).
  { exists [1; 0; 0]%Q, 1%Q. split; [by left|]. split; [by left|reflexivity]. }
  split; [exact H1|]. split; [exact H2|].
  exact (proj1 (rgb_blink_scale_invariant (Same 1) (Same (1 # 10)) _ 25
                  H1 H2)).
Defined.

End RGBLEDFacts.

(** ** Digital input devices *)

Module DigitalInputDeviceFacts.
Import DigitalInputDevice.
Section Facts.
Context {C : Type}.

(** X20.  A [Switch], pulled up or down, with a callback attached through
    [when_activated] and one through [when_deactivated], its pin at rest: it
    is not active, and an interrupt that finds the pin at rest calls
    nothing.  An interrupt that finds the pin at the other level calls the
    first callback, once, and the switch is active; a second interrupt at
    that level calls nothing; the return of the pin to rest calls the second
    callback, once, and gives back the device as it was.  Reading
    [when_deactivated] on that device gives the callback attached through
    [when_activated]. *)
Theorem button_calls_back_once (pull_up : bool) (pressed released : C) :
  let idle := Z.b2z pull_up in
  let down := Z.b2z (negb pull_up) in
  let button :=
    when_deactivated_set (Some released)
      (when_activated_set (Some pressed) (Switch (C:=C) pull_up idle)) in
  is_active button = false
  /\ when_deactivated button = Some pressed
  /\ _pin_change idle idle button = (button, [])
  /\ (exists held,
        _pin_change down down button = (held, [pressed])
        /\ is_active held = true
        /\ _pin_change down down held = (held, [])
        /\ (exists back,
              _pin_change idle idle held = (back, [released])
              /\ back = button)).
Proof. by destruct pull_up; cbn; repeat (split || eexists). Qed.

(** X21.  [_pin_change] decides on the level it has settled on,
    [last_state], and records the level it reads afterwards.  When
    [last_state] is the level recorded, nothing is recorded and nothing
    called, whatever the pin reads afterwards.  When it is not, the level
    read afterwards is recorded and the callback of the activity it gives,
    if there is one, is called, and only that one; so when that level is the
    one that was recorded, the device is as before and the callback of its
    present activity is called again. *)
Theorem pin_change_compares_the_first_read (d : t (C:=C))
    (last_state level : Z) :
  (_state d = last_state -> _pin_change last_state level d = (d, []))
  /\ (_state d <> last_state ->
        (exists d',
           _pin_change last_state level d
           = (d', if is_active d'
                  then option_list (_when_activated d)
                  else option_list (_when_deactivated d))
           /\ _state d' = level
           /\ _active_state d' = _active_state d
           /\ _when_activated d' = _when_activated d
           /\ _when_deactivated d' = _when_deactivated d)
        /\ _pin_change last_state (_state d) d
           = (d, if is_active d
                 then option_list (_when_activated d)
                 else option_list (_when_deactivated d))).
Proof.
  split.
  - intros <-. unfold _pin_change. by rewrite Z.eqb_refl.
  - intros Hne. unfold _pin_change.
    rewrite (proj2 (Z.eqb_neq _ _) Hne). cbn [negb]. split.
    + exists (mk (_active_state d) level (_when_activated d)
                (_when_deactivated d)).
      split; [|done]. cbn [_when_activated _when_deactivated].
      by destruct (is_active _), (_when_activated d), (_when_deactivated d).
    + destruct d as [a st wa wd]. cbn [_state _active_state _when_activated
        _when_deactivated].
      by destruct (is_active _), wa, wd.
Qed.

End Facts.

Lemma pin_change_compares_the_first_read_witness :
  _state (mk true 0 (Some 7%nat) None) <> 1
  /\ _pin_change 1 0 (mk true 0 (Some 7%nat) None)
     = (mk true 0 (Some 7%nat) None, [])
  /\ _pin_change 1 1 (mk true 1 (Some 7%nat) None)
     = (mk true 1 (Some 7%nat) None, []).
Proof.
  assert (H : _state (mk true 0 (Some 7%nat) None) <> 1) by discriminate.
  assert (H' : _state (mk true 1 (Some 7%nat) None) = 1) by reflexivity.
  split; [exact H|].
  split.
  - exact (proj2 (proj2 (pin_change_compares_the_first_read
                           (mk true 0 (Some 7%nat) None) 1 0) H)).
  - exact (proj1 (pin_change_compares_the_first_read
                    (mk true 1 (Some 7%nat) None) 1 1) H').
Defined.

End DigitalInputDeviceFacts.

(** ** Analog input devices *)

Module AnalogInputDeviceFacts.
Import AnalogInputDevice.

Lemma inject_Z_bounds (state lo hi : Z) :
  lo <= state <= hi -> (inject_Z lo <= inject_Z state <= inject_Z hi)%Q.
Proof. intros [H1 H2]. split; by rewrite <- Zle_Qle. Qed.

(** X22.  For a reading of the ADC between 0 and 65535, a device with
    [active_state] true has a value between 0 and 1, a voltage between 0
    and 3.3 and a percentage between 0 and 100, and its value does not
    decrease when the reading grows. *)
Theorem analog_reading_within_range (d : t) (state : Z) :
  _active_state d = true -> 0 <= state <= 65535 ->
  (0 <= _read d state <= 1)%Q
  /\ (0 <= voltage d state <= 33 # 10)%Q
  /\ 0 <= percent d state <= 100
  /\ (forall state', state <= state' -> (_read d state <= _read d state')%Q).
Proof.
  intros Ha Hs.
  apply inject_Z_bounds in Hs as [H0 H1].
  change (inject_Z 0) with 0%Q in H0. change (inject_Z 65535) with 65535%Q in H1.
  assert (Hv : (0 <= _read d state <= 1)%Q).
  { unfold _read, _state_to_value. rewrite Ha. cbv iota. split.
    - apply Qle_shift_div_l; [reflexivity|]. lra.
    - apply Qle_shift_div_r; [reflexivity|]. lra. }
  split; [done|]. split; [unfold voltage; lra|]. split.
  - unfold percent.
    assert (Hx : (0 <= _read d state * 100)%Q) by lra.
    rewrite (py_int_nonneg _ Hx) by done.
    split.
    + apply (Qfloor_resp_le 0). lra.
    + apply (Qfloor_resp_le _ 100). lra.
  - intros state' Hle. unfold _read, _state_to_value. rewrite Ha. cbv iota.
    apply Qmult_le_compat_r; [|done]. by rewrite <- Zle_Qle.
Qed.

(** X23.  A device with [active_state] false has the value
    [(1 - reading) / 65535]: for a reading of 2 or more it is negative, so
    that the device is not active whatever the threshold, if that is not
    negative. *)
Theorem analog_active_low_is_never_active (d : t) (state : Z) :
  _active_state d = false -> 2 <= state -> (0 <= _threshold d)%Q ->
  (_read d state < 0)%Q /\ is_active d state = false.
Proof.
  intros Ha Hs Ht.
  assert (Hq : (2 <= inject_Z state)%Q).
  { change 2%Q with (inject_Z 2). by rewrite <- Zle_Qle. }
  assert (Hv : (_read d state < 0)%Q).
  { unfold _read, _state_to_value. rewrite Ha. cbv iota.
    apply Qlt_shift_div_r; [reflexivity|]. lra. }
  split; [done|]. unfold is_active.
  apply negb_false_iff, Qle_bool_iff. lra.
Qed.

(** X24.  The temperature of the on-board sensor is 27 at 0.706 V and falls
    strictly as the reading of the ADC grows. *)
Theorem pico_temp_falls_with_the_reading (state state' : Z) :
  (pico_temp_conversion (706 # 1000) == 27)%Q
  /\ (state < state' -> (pico_temp state' < pico_temp state)%Q).
Proof.
  split; [reflexivity|].
  intros Hlt. unfold pico_temp, pico_temp_conversion, voltage, _read,
    _state_to_value, pico_temp_sensor. cbn [_active_state].
  assert (Hq : (inject_Z state < inject_Z state')%Q) by (by rewrite <- Zlt_Qlt).
  assert (Hv : (inject_Z state / 65535 * (33 # 10)
                < inject_Z state' / 65535 * (33 # 10))%Q).
  { apply Qmult_lt_compat_r; [reflexivity|].
    by apply Qmult_lt_compat_r. }
  assert (Hd : forall a b : Q, (a < b)%Q ->
               ((a - (706 # 1000)) / (1721 # 1000000)
                < (b - (706 # 1000)) / (1721 # 1000000))%Q).
  { intros a b Hab. apply Qmult_lt_compat_r; [reflexivity|lra]. }
  apply Hd in Hv. lra.
Qed.

Lemma analog_reading_within_range_witness :
  _active_state (mk true (1 # 2)) = true /\ 0 <= 40000 <= 65535
  /\ 0 <= percent (mk true (1 # 2)) 40000 <= 100.
Proof.
  assert (H1 : _active_state (mk true (1 # 2)) = true) by reflexivity.
  assert (H2 : 0 <= 40000 <= 65535) by lia.
  split; [exact H1|]. split; [exact H2|].
  exact (proj1 (proj2 (proj2
           (analog_reading_within_range (mk true (1 # 2)) 40000 H1 H2)))).
Defined.

Lemma analog_active_low_is_never_active_witness :
  _active_state (mk false (1 # 2)) = false /\ 2 <= 65535
  /\ (0 <= _threshold (mk false (1 # 2)))%Q
  /\ is_active (mk false (1 # 2)) 65535 = false.
Proof.
  assert (H1 : _active_state (mk false (1 # 2)) = false) by reflexivity.
  assert (H2 : 2 <= 65535) by lia.
  assert (H3 : (0 <= _threshold (mk false (1 # 2)))%Q) by discriminate.
  split; [exact H1|]. split; [exact H2|]. split; [exact H3|].
  exact (proj2 (analog_active_low_is_never_active (mk false (1 # 2)) 65535
                  H1 H2 H3)).
Defined.

Lemma pico_temp_falls_with_the_reading_witness :
  14000 < 15000 /\ (pico_temp 15000 < pico_temp 14000)%Q.
Proof.
  assert (H : 14000 < 15000) by lia.
  split; [exact H|].
  exact (proj2 (pico_temp_falls_with_the_reading 14000 15000) H).
Defined.

End AnalogInputDeviceFacts.

(** ** The buzzer: notes and tunes *)

Module PWMBuzzerPlayFacts.
Import PWMBuzzer.

Lemma notes_in_range (s : string) (f : Z) :
  NOTES !! s = Some f -> 31 <= f <= 4978.
Proof.
  intros H. unfold NOTES in H. apply elem_of_list_to_map_2 in H.
  repeat (apply elem_of_cons in H as [[= -> ->] | H]; [lia|]).
  by apply elem_of_nil in H.
Qed.

Section Facts.
Variable float_pow : Q -> Q -> Q.

(** X25.  A note name that is not the empty string resolves, when it is in
    [NOTES], to the frequency there, an integer between 31 and 4978; when
    it is not, as for a name in capitals, [_to_freq] raises [KeyError] with
    the name. *)
Theorem note_names_resolve_or_raise (s : string) :
  s ≠ "" ->
  match NOTES !! s with
  | Some f => _to_freq float_pow (PyStr s) = inr (PyInt f) /\ 31 <= f <= 4978
  | None => _to_freq float_pow (PyStr s) = inl (KeyError s)
  end.
Proof.
  intros Hs. unfold _to_freq. rewrite bool_decide_false by done.
  destruct (NOTES !! s) as [f|] eqn:E; [|done].
  split; [done|]. by apply (notes_in_range s).
Qed.

(** X26.  Writing a rest to the buzzer does not retune it: for the values
    0, [None] and the empty string, and for a tuple whose note is one of
    these, [_write] leaves the frequency of the PWM as it is and writes the
    volume 0. *)
Theorem rest_does_not_retune (value : Value) (d : t) :
  (silent value = true
   \/ exists freq volume, value = Pair freq volume /\ sounding freq = false) ->
  _write float_pow value d = inr (write_volume 0 d)
  /\ pwm_freq (write_volume 0 d) = pwm_freq d
  /\ PWMOutputDevice.duty_u16 (super (write_volume 0 d))
     = PWMOutputDevice._value_to_state (super d) 0.
Proof.
  intros H. split; [|done]. unfold _write.
  destruct H as [-> | (freq & volume & -> & Hf)]; [done|].
  cbn [silent].
  destruct freq as [|s|z|q]; cbn in Hf.
  - done.
  - apply negb_false_iff in Hf. unfold _to_freq. by rewrite Hf.
  - apply negb_false_iff, Z.eqb_eq in Hf. by subst z.
  - apply negb_false_iff in Hf. unfold _to_freq.
    by rewrite Hf.
Qed.

(** X27.  Writing a note of [NOTES] to the buzzer sets the frequency of the
    PWM to the frequency of the table and writes the volume: the volume of
    the tuple, or the volume of the buzzer when the name is given alone. *)
Theorem named_note_sets_frequency (s : string) (f : Z) (volume : Q) (d : t) :
  s ≠ "" -> NOTES !! s = Some f ->
  _write float_pow (Pair (PyStr s) volume) d
  = inr (mk (PWMOutputDevice._write volume (super d)) (PyInt f)
            (_volume d) (_bpm d))
  /\ _write float_pow (Scalar (PyStr s)) d
  = inr (mk (PWMOutputDevice._write (_volume d) (super d)) (PyInt f)
            (_volume d) (_bpm d)).
Proof.
  intros Hs Hf. pose proof (notes_in_range _ _ Hf) as Hr.
  unfold _write, _to_freq. cbn [silent].
  rewrite !bool_decide_false by done. rewrite Hf. cbn [sounding].
  rewrite (proj2 (Z.eqb_neq f 0)) by lia. done.
Qed.

End Facts.

Section Tune.
Variable float_of_str : string -> option Q.

(** X28.  For a tune whose entries all are a note and a number of beats,
    at a tempo that is not 0, the generator raises nothing; the seconds of
    its steps add up to the seconds of the beats, [beats * 60 / bpm] for
    each entry, whatever the multiplier: a note and the gap after it take
    the time of the note; and it yields one step for a rest and two for any
    other note. *)
Theorem tune_keeps_its_length (bpm volume multiplier : Q)
    (tune : list (PyVal * Q)) (start : option Q) :
  ~ (bpm == 0)%Q ->
  exists steps,
    tune_generator float_of_str bpm volume multiplier start
      ((fun e : PyVal * Q => [e.1; PyFloat e.2]) <$> tune) = (steps, None)
    /\ (foldr Qplus 0 steps.*2
        == foldr Qplus 0 ((fun e : PyVal * Q => e.2 * 60 / bpm) <$> tune))%Q
    /\ length steps
       = sum_list ((fun e : PyVal * Q => if is_rest e.1 then 1 else 2)%nat
                     <$> tune).
Proof.
  intros Hbpm. revert start.
  induction tune as [|[note dur] tune IH]; intros start.
  { by exists []. }
  cbn [fmap list_fmap tune_generator fst snd py_float].
  unfold to_seconds.
  destruct (Qeq_bool bpm 0) eqn:E; [by apply Qeq_bool_iff in E|].
  destruct (IH (Some (dur * 60 / bpm)%Q)) as (rest & Erest & Hsum & Hlen).
  change (list_fmap _ _ ?f tune) with (f <$> tune).
  rewrite Erest.
  eexists. split; [reflexivity|].
  destruct (is_rest note).
  - cbn. rewrite Hsum, Hlen. split; [reflexivity|done].
  - cbn. rewrite Hsum, Hlen. split; [|done].
    change (list_fmap _ _ ?f tune) with (f <$> tune). ring.
Qed.

(** X29.  An entry of a tune that is a note alone takes the beats of the
    entry before it: the generator yields for it what it yields for the
    note with those beats.  When it is the first entry, the generator
    raises [UnboundLocalError] before it has yielded any step. *)
Theorem entry_without_duration (bpm volume multiplier : Q)
    (note note' : PyVal) (dur : Q) (tune : list (list PyVal)) :
  tune_generator float_of_str bpm volume multiplier None ([note] :: tune)
  = ([], Some UnboundLocalError)
  /\ tune_generator float_of_str bpm volume multiplier None
       ([note; PyFloat dur] :: [note'] :: tune)
     = tune_generator float_of_str bpm volume multiplier None
         ([note; PyFloat dur] :: [note'; PyFloat dur] :: tune).
Proof.
  split; [done|].
  cbn [tune_generator py_float]. unfold to_seconds.
  by destruct (Qeq_bool bpm 0).
Qed.

End Tune.

Lemma note_names_resolve_or_raise_witness :
  "A4" ≠ ""
  /\ _to_freq (fun _ _ => 1%Q) (PyStr "A4") = inl (KeyError "A4").
Proof.
  assert (H : "A4" ≠ "") by discriminate.
  split; [exact H|].
  exact (note_names_resolve_or_raise (fun _ _ => 1%Q) "A4" H).
Defined.

Lemma rest_does_not_retune_witness :
  (silent (Pair (PyStr "") 1) = true
   \/ exists freq volume,
        Pair (PyStr "") 1 = Pair freq volume /\ sounding freq = false)
  /\ pwm_freq (write_volume 0
                 (mk (PWMOutputDevice.mk 5 1023 true 511) (PyInt 440)
                     (1 # 2) 120))
     = PyInt 440.
Proof.
  assert (H : silent (Pair (PyStr "") 1) = true
              \/ exists freq volume,
                   Pair (PyStr "") 1 = Pair freq volume
                   /\ sounding freq = false).
  { right. exists (PyStr ""), 1%Q. split; reflexivity. }
  split; [exact H|].
  exact (proj1 (proj2 (rest_does_not_retune (fun _ _ => 1%Q)
                         (Pair (PyStr "") 1)
                         (mk (PWMOutputDevice.mk 5 1023 true 511) (PyInt 440)
                             (1 # 2) 120) H))).
Defined.

Lemma named_note_sets_frequency_witness :
  "c4" ≠ "" /\ NOTES !! "c4" = Some 262
  /\ _write (fun _ _ => 1%Q) (Pair (PyStr "c4") 1)
       (mk (PWMOutputDevice.mk 5 1023 true 511) (PyInt 440) (1 # 2) 120)
     = inr (mk (PWMOutputDevice._write 1 (PWMOutputDevice.mk 5 1023 true 511))
               (PyInt 262) (1 # 2) 120).
Proof.
  assert (H1 : "c4" ≠ "") by discriminate.
  assert (H2 : NOTES !! "c4" = Some 262) by reflexivity.
  split; [exact H1|]. split; [exact H2|].
  exact (proj1 (named_note_sets_frequency (fun _ _ => 1%Q) "c4" 262 1
                  (mk (PWMOutputDevice.mk 5 1023 true 511) (PyInt 440)
                      (1 # 2) 120) H1 H2)).
Defined.

Lemma tune_keeps_its_length_witness :
  ~ (120 == 0)%Q
  /\ exists steps,
       tune_generator (fun _ => None) 120 1 (9 # 10) None
         ((fun e : PyVal * Q => [e.1; PyFloat e.2])
            <$> [(PyStr "c4", 1%Q); (PyNone, 2%Q)]) = (steps, None)
       /\ (foldr Qplus 0 steps.*2
           == foldr Qplus 0 ((fun e : PyVal * Q => e.2 * 60 / 120)
                               <$> [(PyStr "c4", 1%Q); (PyNone, 2%Q)]))%Q
       /\ length steps
          = sum_list ((fun e : PyVal * Q => if is_rest e.1 then 1 else 2)%nat
                        <$> [(PyStr "c4", 1%Q); (PyNone, 2%Q)]).
Proof.
  assert (H : ~ (120 == 0)%Q) by discriminate.
  split; [exact H|].
  exact (tune_keeps_its_length (fun _ => None) 120 1 (9 # 10)
           [(PyStr "c4", 1%Q); (PyNone, 2%Q)] None H).
Defined.

End PWMBuzzerPlayFacts.
